(* ===== verification/_CoqProject ===== *)
-Q . S2P
Prelude.v
GoNum.v
CHeap.v
Soxr.v
RefSoxr.v
IoWriter.v
Resampler.v
FrameBudget.v
Lifecycle.v
Cli.v
CliRuns.v
Scenarios.v
