(* ===== verification/Prelude.v ===== *)
(** * A verification development of the Go package github.com/zaf/resample

    The program.  [src/resample.go] is a Go package that wraps the SoX
    resampler library libsoxr through cgo.  Its one type, [Resampler],
    implements [io.WriteCloser]: [New] validates a configuration and
    creates a [soxr_t] stream; [Write] splits the bytes it is given into
    whole frames, calls [soxr_process] with a C buffer sized from the rate
    ratio and forwards what soxr produced to the destination [io.Writer];
    the private [flush] asks soxr for its buffered tail; [Close] flushes and
    deletes the [soxr_t]; [Reset] flushes to the old writer, swaps in a new
    one and clears the engine.  Every C buffer is obtained with
    [C.CBytes]/[C.malloc] and released with [C.free] on a [goto cleanup]
    path.  [src/unnamed/part_000] is the command [goresample] ([main]):
    it parses flags, maps format names with [strToFormat], opens the
    files, builds a [Resampler], skips a 44-byte WAV header, copies the
    input into the resampler with [io.Copy], closes it and the output.

    The library (files listed in dependency order in _CoqProject).
    - [Prelude] (this file): the state-and-panic monad [M] in which every
      Go function of the model is written, its notation in [go_scope],
      the [go] hint and rewrite database, the shared tactics.
    - [GoNum]: Go's and cgo's integer and floating-point conversions at
      their width: [int] (64-bit two's complement), [C.int] (32 bits),
      [C.uint], [C.size_t]; [float64(int)] and [int(float64)] on the
      kernel's primitive binary64 floats.
    - [CHeap]: the C heap seen by cgo: [C.malloc], [C.CBytes], [C.GoBytes],
      [C.free], with the crash cases (cgo's malloc abort, invalid free,
      out-of-bounds reads).
    - [Soxr]: the interface of libsoxr that the package calls, as a
      class [Soxr] of operations ([soxr_create], [soxr_process],
      [soxr_clear]) with the contract [SoxrLaws] the package relies on.
      libsoxr itself is not part of the repository and is not modelled.
    - [RefSoxr]: [ref_soxr], an executable engine that satisfies
      [SoxrLaws] (nearest-neighbour conversion for integral rates, a
      latency of 16 frames held back until a flush, libsoxr's clamp of
      the input it consumes), so concrete runs evaluate.
    - [IoWriter]: the destination [io.Writer] as a class of writers that
      append to a shared write log.
    - [Resampler]: the world (heap, live [soxr_t] handles, write log,
      the package variable [threads]), the [Resampler] struct and the
      functions [init], [New], [Write], [flush], [Close], [Reset], each a
      translation of its Go body, and their theorems: the result of each
      method on every path, the released C buffers, the 32-bit [C.int]
      wrap of the output length in [Write] and in [flush], and that
      [New] returns only well-typed structs (frame sizes 2, 4 or 8,
      channels other than 0).
    - [FrameBudget]: [Write]'s float frame budget against the spec's
      [floor(framesIn * outputRate / inputRate)]: equal on eight common
      rate pairs for every chunk of up to 8192 frames (checked by
      evaluation), and one frame short at 49 Hz -> 1 Hz.
    - [Lifecycle]: weakest preconditions [wp] for each primitive and each
      method; the invariant [world_wf] (heap well formed, every live
      [soxr_t] allocated) and [owns] (the struct's handle is nil or
      live); the calls [Write], [Reset], [Close] as [run_call], the step
      relation [reachable] (from [New], then any call), and by rule
      induction: no reachable state uses a deleted stream, [Close]
      releases exactly its stream, a closed struct is terminal, and
      the write log splits at the return of [Reset] between the old
      writer (its flush included) and the new one.
    - [Cli]: the command [main] of [src/unnamed/part_000] on a
      [cli_state] (world, files, descriptors): [strToFormat] with
      [strings.ToLower] on UTF-8 bytes, [filepath.Ext], [os.Open],
      [os.Create], [os.Remove], the file [Close], and [io.Copy]'s loop
      [io_copy]; the loop is proved to refine [write_chunks], the loop
      over the 32 KiB chunks ([chunks], by well-founded recursion with
      Equations), and [main] never uses a deleted stream and never runs
      out of fuel, every run that returns deletes the stream it
      created, and a run that exits with status 0 leaves in the output
      file every byte written to it, the final flush included (the order
      [res.Close()] then [output.Close()]).
    - [CliRuns]: the witnesses of the [Cli] theorems, [main] evaluated
      on concrete files with the reference engine.
    - [Scenarios]: the witnesses of the [Resampler] and [Lifecycle]
      theorems, evaluated on the reference engine.

    Fuel.  [io_copy] iterates at most [copy_fuel data off] times: one
    iteration per 32768-byte chunk after the offset, and the read that
    returns [io.EOF]; [io_copy_refines] shows this is enough (the loop
    equals the fuel-free loop over the chunks), and [main_safe] that the
    [OutOfFuel] panic never occurs in [main].  No other
    function of the model needs fuel: the package has no other loop.

    What is modelled and how.  Every Go function is a function
    [world -> outcome (A * world)]: an [outcome] is a normal return or a
    [Crash] (a Go panic or a C-level abort: nil [io.Writer] call, cgo
    malloc failure, [free] of a pointer malloc did not return, a
    [soxr_t] used after [soxr_delete]).  Go [error] values are returned
    as values of the inductive [go_error].  Floats are Rocq's primitive
    binary64 floats, so rate checks and the frame budget
    [int(float64(framesIn) * (outRate / inRate))] are computed bit for
    bit as the Go program does.  [int(f)] for an [f] out of the range of
    [int] is implementation dependent in Go; the model takes the amd64
    result (the minimum [int]).

    Not modelled: libsoxr's arithmetic (an interface with laws stands for
    it, and [RefSoxr] is one engine that satisfies it); concurrency (the
    package has none: soxr's worker threads are internal to one call);
    [flag.Parse] ([main] takes the parsed values as [flags]); the
    [defer input.Close()] of [main] (closing a read-only file has no
    effect the program observes); file permissions and devices beyond
    whether a create or a write succeeds. *)

From stdpp Require Export base list gmap strings.
From Stdlib Require Export ZArith Lia.

Abbreviation byte := Byte.byte.

Declare Scope go_scope.
Delimit Scope go_scope with go.
Open Scope go_scope.

(** ** Outcomes and the state-and-panic monad *)

(** Why a Go program stops abnormally. *)
Inductive panic : Type :=
| NilDereference     (** a method called through a nil interface value *)
| DivideByZero       (** Go integer division by zero *)
| CMallocFailed      (** cgo's [C.malloc] aborts the process when malloc fails *)
| InvalidFree        (** [C.free] of a pointer that malloc did not return *)
| BadLength          (** [C.GoBytes] given a length out of range *)
| OutOfBounds        (** a C read or write past the end of a block *)
| UseAfterDelete     (** a [soxr_t] used after [soxr_delete] *)
| OutOfFuel.         (** a loop of the model ran out of fuel (never, by the termination theorems) *)

#[export] Instance panic_eq_dec : EqDecision panic.
Proof. solve_decision. Defined.

Inductive outcome (A : Type) : Type :=
| Done (a : A)
| Crash (p : panic).
Arguments Done {A} a.
Arguments Crash {A} p.

Definition M (S A : Type) : Type := S -> outcome (A * S).

Definition ret {S A} (a : A) : M S A := fun s => Done (a, s).

Definition bind {S A B} (m : M S A) (k : A -> M S B) : M S B :=
  fun s => match m s with
           | Done (a, s') => k a s'
           | Crash p => Crash p
           end.

Definition crash {S A} (p : panic) : M S A := fun _ => Crash p.
Definition get {S} : M S S := fun s => Done (s, s).
Definition put {S} (s : S) : M S unit := fun _ => Done (tt, s).
Definition modify {S} (f : S -> S) : M S unit := fun s => Done (tt, f s).

Notation "'let*' x ':=' c1 'in' c2" := (bind c1 (fun x => c2))
  (at level 10, x name, c1 at level 100, c2 at level 200) : go_scope.
Notation "'let*' ' p ':=' c1 'in' c2" := (bind c1 (fun x => match x with p => c2 end))
  (at level 10, p pattern, c1 at level 100, c2 at level 200) : go_scope.

(** Whether a run returned; a concrete run is checked by evaluating it. *)
Definition is_done {A} (o : outcome A) : bool := match o with Done _ => true | Crash _ => false end.

Lemma is_done_spec {A} (o : outcome A) : is_done o = true -> exists a, o = Done a.
Proof. destruct o; [eauto|done]. Qed.

(** A computation that returns and leaves the state as it found it. *)
Definition pure_run {S A} (m : M S A) (s : S) (a : A) : Prop := m s = Done (a, s).

(** ** Monad laws, used as rewrite rules *)

Lemma bind_ret_l {S A B} (a : A) (k : A -> M S B) s :
  bind (ret a) k s = k a s.
Proof. reflexivity. Qed.

Lemma bind_crash {S A B} p (k : A -> M S B) s :
  bind (crash p) k s = Crash p.
Proof. reflexivity. Qed.

Lemma bind_assoc {S A B C} (m : M S A) (k : A -> M S B) (h : B -> M S C) s :
  bind (bind m k) h s = bind m (fun a => bind (k a) h) s.
Proof. unfold bind. destruct (m s) as [[a s']|p]; reflexivity. Qed.

Lemma bind_done {S A B} (m : M S A) (k : A -> M S B) s a s' :
  m s = Done (a, s') -> bind m k s = k a s'.
Proof. intros H. unfold bind. by rewrite H. Qed.

Lemma bind_crashed {S A B} (m : M S A) (k : A -> M S B) s p :
  m s = Crash p -> bind m k s = Crash p.
Proof. intros H. unfold bind. by rewrite H. Qed.

Lemma bind_modify {S B} (f : S -> S) (k : unit -> M S B) s :
  bind (modify f) k s = k tt (f s).
Proof. reflexivity. Qed.

Lemma bind_get {S B} (k : S -> M S B) s : bind get k s = k s s.
Proof. reflexivity. Qed.

Lemma bind_inv_done {S A B} (m : M S A) (k : A -> M S B) s r :
  bind m k s = Done r -> exists a s', m s = Done (a, s') /\ k a s' = Done r.
Proof. unfold bind. destruct (m s) as [[a s']|p]; [eauto|done]. Qed.

Create HintDb go.
Create Rewrite HintDb go.
#[export] Hint Rewrite @bind_ret_l @bind_crash @bind_assoc @bind_modify @bind_get : go.

(** [run_with H] steps over a bind whose first computation is described
    by the equation [H]. *)
Ltac run_with H :=
  first [ rewrite (bind_done _ _ _ _ _ H) | rewrite (bind_crashed _ _ _ _ H) ].

(** [step H] runs the first computation of a bind, described by the
    equation [H : m s = Done (a, s')], and continues with the rest. *)
Ltac step H := rewrite (bind_done _ _ _ _ _ H); cbv beta iota.

(** [estep tac] does the same when [tac] proves the equation. *)
Ltac estep tac := erewrite bind_done by tac; cbv beta iota.

(** ** Weakest preconditions

    [wp ok m Q s]: run from [s], [m] either returns [a] in a state [s']
    with [Q a s'], or stops with a panic that [ok] allows.  The safety
    theorems instantiate [ok] with the panics they do not rule out. *)
Definition wp {S A} (ok : panic -> Prop) (m : M S A) (Q : A -> S -> Prop) (s : S) : Prop :=
  match m s with
  | Done (a, s') => Q a s'
  | Crash p => ok p
  end.

Section Wp.
Context {S : Type} (ok : panic -> Prop).

Lemma wp_ret {A} (a : A) (Q : A -> S -> Prop) s : Q a s -> wp ok (ret a) Q s.
Proof. done. Qed.

Lemma wp_bind {A B} (m : M S A) (k : A -> M S B) Q s :
  wp ok m (fun a s' => wp ok (k a) Q s') s -> wp ok (bind m k) Q s.
Proof. unfold wp, bind. by destruct (m s) as [[a s']|p]. Qed.

Lemma wp_crash {A} p (Q : A -> S -> Prop) s : ok p -> wp ok (crash p) Q s.
Proof. done. Qed.

Lemma wp_get (Q : S -> S -> Prop) s : Q s s -> wp ok get Q s.
Proof. done. Qed.

Lemma wp_modify f (Q : unit -> S -> Prop) s : Q tt (f s) -> wp ok (modify f) Q s.
Proof. done. Qed.

Lemma wp_mono {A} (m : M S A) (Q Q' : A -> S -> Prop) s :
  wp ok m Q s -> (forall a s', Q a s' -> Q' a s') -> wp ok m Q' s.
Proof. unfold wp. destruct (m s) as [[a s']|p]; auto. Qed.

(** What [wp] says of a run that returns, and of one that panics. *)
Lemma wp_done {A} (m : M S A) Q s a s' : wp ok m Q s -> m s = Done (a, s') -> Q a s'.
Proof. unfold wp. intros H E. by rewrite E in H. Qed.

Lemma wp_crashed {A} (m : M S A) (Q : A -> S -> Prop) s p : wp ok m Q s -> m s = Crash p -> ok p.
Proof. unfold wp. intros H E. by rewrite E in H. Qed.

(** A weaker set of allowed panics. *)
Lemma wp_ok_mono {A} (ok' : panic -> Prop) (m : M S A) Q s :
  wp ok m Q s -> (forall p, ok p -> ok' p) -> wp ok' m Q s.
Proof. unfold wp. destruct (m s) as [[a s']|p]; auto. Qed.

(** A step proved by an equation. *)
Lemma wp_eq {A} (m : M S A) Q s a s' : m s = Done (a, s') -> Q a s' -> wp ok m Q s.
Proof. unfold wp. by intros ->. Qed.
End Wp.

(** [wp_seq] reduces a [wp] goal over binds, returns, crashes, [if]s and
    the destructuring of a result to the goals of the primitive
    computations; [wp_prim] is tried on each of them. *)
Ltac wp_seq wp_prim :=
  repeat (cbv beta iota;
    match goal with
    | |- wp _ (bind _ _) _ _ => apply wp_bind
    | |- wp _ (ret _) _ _ => apply wp_ret
    | |- wp _ (modify _) _ _ => apply wp_modify
    | |- wp _ get _ _ => apply wp_get
    | |- wp _ (crash _) _ _ => apply wp_crash; first [done | exact I]
    | |- wp _ (if ?b then _ else _) _ _ => destruct b
    | |- wp _ (match ?x with _ => _ end) _ _ => destruct x
    | |- forall _, _ => intro
    | |- wp _ _ _ _ => wp_prim
    end).

(** ** Lengths as Go [int]s *)

(** [len(p)] of a Go slice. *)
Definition len {A} (l : list A) : Z := Z.of_nat (length l).

Lemma len_nonneg {A} (l : list A) : (0 <= len l)%Z.
Proof. unfold len. lia. Qed.

Lemma len_app {A} (l1 l2 : list A) : len (l1 ++ l2) = (len l1 + len l2)%Z.
Proof. unfold len. rewrite length_app. lia. Qed.

Lemma len_zero {A} (l : list A) : len l = 0%Z <-> l = [].
Proof. unfold len. destruct l; simpl; split; intros; try done; lia. Qed.

#[export] Hint Resolve len_nonneg : go.
#[export] Hint Rewrite @len_app : go.

(** ** Products of sizes *)

(** A count times two positive sizes bounds the count and the partial
    product. *)
Lemma mul3_ge (a b c : Z) :
  (0 <= a -> 0 < b -> 0 < c -> a <= a * b /\ a * b <= a * b * c /\ a <= a * b * c)%Z.
Proof. intros Ha Hb Hc. assert (a <= a * b)%Z by nia. assert (a * b <= a * b * c)%Z by nia. lia. Qed.

(** Multiplying a smaller count by the same sizes gives a smaller product. *)
Lemma mul3_mono (a a' b c : Z) :
  (0 <= a <= a' -> 0 < b -> 0 < c -> a * b * c <= a' * b * c)%Z.
Proof. intros Ha Hb Hc. apply Z.mul_le_mono_nonneg_r; [lia|]. apply Z.mul_le_mono_nonneg_r; lia. Qed.
