(* ===== verification/GoNum.v ===== *)
(** * Go and cgo numbers at their width

    The arithmetic of [src/resample.go] on Go [int] (64-bit two's
    complement on the platforms the package targets), the cgo conversions
    [C.int], [C.uint], [C.ulong], [C.size_t] and back, and the float64
    conversions [float64(int)] and [int(float64)].  Floats are the
    kernel's primitive binary64 numbers ([PrimFloat]), so a model run
    computes exactly what the Go program computes. *)

From S2P Require Import Prelude.
From Stdlib Require Export Floats.

Open Scope Z_scope.

(** ** Fixed-width integers *)

Definition int_min : Z := - 2 ^ 63.
Definition int_max : Z := 2 ^ 63 - 1.

(** Two's complement wrap-around of a Go [int] (and of a [C.long]). *)
Definition wrap_int (z : Z) : Z := (z + 2 ^ 63) mod 2 ^ 64 - 2 ^ 63.

(** [C.int] is 32-bit: the conversion keeps the low 32 bits, signed. *)
Definition c_int (z : Z) : Z := (z + 2 ^ 31) mod 2 ^ 32 - 2 ^ 31.

(** Unsigned conversions: [C.uint] (32 bits), [C.ulong] and [C.size_t]
    (64 bits). *)
Definition c_uint (z : Z) : Z := z mod 2 ^ 32.
Definition c_ulong (z : Z) : Z := z mod 2 ^ 64.
Definition c_size_t (z : Z) : Z := z mod 2 ^ 64.

(** [int(s)] for a [C.size_t] [s]. *)
Definition int_of_size_t (s : Z) : Z := wrap_int s.

(** Go's [a * b] and [a / b] on [int].  Division truncates toward zero;
    a zero divisor is a run-time panic, see [go_div]. *)
Definition int_mul (a b : Z) : Z := wrap_int (a * b).
Definition int_quot (a b : Z) : Z := wrap_int (Z.quot a b).

Definition go_div {S} (a b : Z) : M S Z :=
  if b =? 0 then crash DivideByZero else ret (int_quot a b).

Definition in_int_range (z : Z) : bool := (int_min <=? z) && (z <=? int_max).

(** ** Floats *)

(** [float64(z)] for a Go [int]: round to nearest, ties to even. *)
Definition float64_of_int (z : Z) : float :=
  SF2Prim (binary_normalize prec emax z 0 false).

(** The truncation of a finite float toward zero, as an integer. *)
Definition float_trunc (f : float) : option Z :=
  match Prim2SF f with
  | S754_zero _ => Some 0
  | S754_finite s m e =>
      let a := if 0 <=? e then Z.pos m * 2 ^ e else Z.pos m / 2 ^ (- e) in
      Some (if s then - a else a)
  | _ => None
  end.

(** [int(f)]: truncation when the result is an [int]; otherwise Go leaves
    the value to the implementation and amd64's CVTTSD2SI gives
    [int_min], the value taken here. *)
Definition int_of_float64 (f : float) : Z :=
  match float_trunc f with
  | Some z => if in_int_range z then z else int_min
  | None => int_min
  end.

(** Go's [f <= 0] on float64; false when [f] is NaN. *)
Definition float_le_zero (f : float) : bool := PrimFloat.leb f 0%float.

(** ** Lemmas *)

Lemma wrap_int_small z : int_min <= z <= int_max -> wrap_int z = z.
Proof.
  unfold wrap_int, int_min, int_max. intros H.
  rewrite Z.mod_small; lia.
Qed.

Lemma c_int_small z : - 2 ^ 31 <= z < 2 ^ 31 -> c_int z = z.
Proof. unfold c_int. intros H. rewrite Z.mod_small; lia. Qed.

(** A value in [[2^31, 2^32)] wraps to a negative [C.int]. *)
Lemma c_int_wraps z : 2 ^ 31 <= z < 2 ^ 32 -> c_int z = z - 2 ^ 32.
Proof.
  unfold c_int. intros H. replace (z + 2 ^ 31) with ((z - 2 ^ 31) + 1 * 2 ^ 32) by ring.
  rewrite Z.mod_add, Z.mod_small by lia. lia.
Qed.

Lemma c_size_t_small z : 0 <= z < 2 ^ 64 -> c_size_t z = z.
Proof. unfold c_size_t. intros H. by rewrite Z.mod_small. Qed.

Lemma c_uint_small z : 0 <= z < 2 ^ 32 -> c_uint z = z.
Proof. unfold c_uint. intros H. by rewrite Z.mod_small. Qed.

Lemma wrap_int_range z : int_min <= wrap_int z <= int_max.
Proof.
  unfold wrap_int, int_min, int_max.
  pose proof (Z.mod_pos_bound (z + 2 ^ 63) (2 ^ 64)). lia.
Qed.

Lemma c_int_range z : - 2 ^ 31 <= c_int z < 2 ^ 31.
Proof. unfold c_int. pose proof (Z.mod_pos_bound (z + 2 ^ 31) (2 ^ 32)). lia. Qed.

Lemma c_size_t_range z : 0 <= c_size_t z < 2 ^ 64.
Proof. unfold c_size_t. apply Z.mod_pos_bound. lia. Qed.

(** A [C.int] conversion of a non-negative value never grows it. *)
Lemma c_int_le z : 0 <= z -> c_int z <= z.
Proof.
  unfold c_int. intros H.
  destruct (Z.lt_ge_cases z (2 ^ 31)) as [Hs|Hb].
  - rewrite Z.mod_small; lia.
  - pose proof (Z.mod_pos_bound (z + 2 ^ 31) (2 ^ 32)). lia.
Qed.

Lemma in_int_range_spec z : in_int_range z = true <-> int_min <= z <= int_max.
Proof. unfold in_int_range. rewrite andb_true_iff, !Z.leb_le. done. Qed.

(** Go's division of non-negative [int]s is Euclidean division. *)
Lemma int_quot_nonneg a b :
  0 <= a <= int_max -> 0 < b -> int_quot a b = a / b.
Proof.
  intros Ha Hb. unfold int_quot.
  rewrite Z.quot_div_nonneg by lia.
  apply wrap_int_small. unfold int_min, int_max in *.
  split; [pose proof (Z.div_pos a b); lia|].
  pose proof (Z.div_le_upper_bound a b a). nia.
Qed.

Lemma go_div_nonzero {S} a b (s : S) :
  b <> 0 -> go_div a b s = Done (int_quot a b, s).
Proof. intros H. unfold go_div. by rewrite (proj2 (Z.eqb_neq b 0) H). Qed.

Lemma go_div_zero {S} a (s : S) : go_div a 0 s = Crash DivideByZero.
Proof. reflexivity. Qed.

#[export] Hint Resolve wrap_int_range c_int_range c_size_t_range len_nonneg : go.
