(* ===== verification/CHeap.v ===== *)
(** * The C heap reached through cgo

    [src/resample.go] allocates every buffer it hands to libsoxr on the C
    heap: [C.CBytes(p)] (a malloc'd copy of a Go slice), [C.malloc(n)],
    and reads results back with [C.GoBytes(ptr, n)]; it releases them with
    [C.free].  The heap here is a finite map from pointers to blocks; a
    pointer is a non-zero [N], and [0] is [NULL].  Crashes:
    - cgo's [C.malloc] never returns NULL: when malloc fails the process
      aborts ([CMallocFailed]); a request above [hp_limit] fails;
    - [C.free] of a non-NULL pointer that is not a live block
      ([InvalidFree]);
    - [C.GoBytes] with a negative length ([BadLength]), or reading past
      the end of the block ([OutOfBounds]).
    A block's [blk_data] is its initialised prefix; bytes past it are
    read as zero (C leaves them indeterminate). *)

From S2P Require Import Prelude GoNum.

Open Scope Z_scope.

Record block := mk_block { blk_size : Z; blk_data : list byte }.

Record heap := mk_heap {
  hp_blocks : gmap N block;   (** live blocks *)
  hp_next : N;                (** the next fresh address *)
  hp_limit : Z                (** the largest request malloc satisfies *)
}.

Definition null : N := 0%N.

(** [C.malloc(n)] for a [C.size_t] [n]. *)
Definition c_malloc (n : Z) : M heap N :=
  fun h =>
    if n <=? hp_limit h then
      let p := hp_next h in
      Done (p, mk_heap (<[p := mk_block n []]> (hp_blocks h)) (p + 1)%N (hp_limit h))
    else Crash CMallocFailed.

(** [C.CBytes(b)]: malloc [len(b)] bytes and copy [b] into them. *)
Definition c_CBytes (b : list byte) : M heap N :=
  fun h =>
    if len b <=? hp_limit h then
      let p := hp_next h in
      Done (p, mk_heap (<[p := mk_block (len b) b]> (hp_blocks h)) (p + 1)%N (hp_limit h))
    else Crash CMallocFailed.

(** [C.free(p)]. *)
Definition c_free (p : N) : M heap unit :=
  fun h =>
    if decide (p = null) then Done (tt, h)
    else match hp_blocks h !! p with
         | Some _ => Done (tt, mk_heap (delete p (hp_blocks h)) (hp_next h) (hp_limit h))
         | None => Crash InvalidFree
         end.

(** The first [n] bytes of a block. *)
Definition read_prefix (b : block) (n : Z) : list byte :=
  let k := Z.to_nat n in
  take k (blk_data b) ++ replicate (k - length (blk_data b)) Byte.x00.

(** [C.GoBytes(p, n)] for a [C.int] [n]. *)
Definition c_GoBytes (p : N) (n : Z) : M heap (list byte) :=
  fun h =>
    if n <? 0 then Crash BadLength
    else if n =? 0 then Done ([], h)
    else match hp_blocks h !! p with
         | Some b => if n <=? blk_size b then Done (read_prefix b n, h) else Crash OutOfBounds
         | None => Crash OutOfBounds
         end.

(** The contents of a block, as a C callee reads them. *)
Definition c_read (p : N) : M heap (list byte) :=
  fun h =>
    match hp_blocks h !! p with
    | Some b => Done (blk_data b, h)
    | None => Crash OutOfBounds
    end.

(** A C callee storing [d] at the start of block [p]. *)
Definition c_store (p : N) (d : list byte) : M heap unit :=
  fun h =>
    match hp_blocks h !! p with
    | Some b =>
        if len d <=? blk_size b then
          Done (tt, mk_heap (<[p := mk_block (blk_size b) (d ++ drop (length d) (blk_data b))]>
                               (hp_blocks h)) (hp_next h) (hp_limit h))
        else Crash OutOfBounds
    | None => Crash OutOfBounds
    end.

(** ** Well-formedness: every live block lies below the fresh address and
    no live block is at NULL. *)
Definition heap_wf (h : heap) : Prop :=
  (0 < hp_next h)%N /\ forall p, is_Some (hp_blocks h !! p) -> (0 < p < hp_next h)%N.

(** ** Lemmas *)

Lemma heap_wf_fresh h : heap_wf h -> hp_blocks h !! hp_next h = None.
Proof.
  intros [_ Hwf]. destruct (hp_blocks h !! hp_next h) eqn:E; [|done].
  specialize (Hwf (hp_next h) ltac:(by eexists)). lia.
Qed.

Lemma heap_wf_fresh2 h : heap_wf h -> hp_blocks h !! (hp_next h + 1)%N = None.
Proof.
  intros [_ Hwf]. destruct (hp_blocks h !! (hp_next h + 1)%N) eqn:E; [|done].
  specialize (Hwf (hp_next h + 1)%N ltac:(by eexists)). lia.
Qed.

(** Two fresh blocks allocated one after the other and freed in the same
    order leave the live blocks as they were. *)
Lemma two_blocks_released (m : gmap N block) p b1 b2 b2' :
  m !! p = None -> m !! (p + 1)%N = None ->
  delete (p + 1)%N (delete p (<[(p + 1)%N := b2']> (<[(p + 1)%N := b2]> (<[p := b1]> m)))) = m.
Proof.
  intros H1 H2. rewrite insert_insert_eq, (delete_insert_ne _ p (p + 1)%N) by lia.
  rewrite !delete_insert_eq. by rewrite (delete_id m p), (delete_id m (p + 1)%N).
Qed.

Lemma heap_wf_empty n l : (0 < n)%N -> heap_wf (mk_heap ∅ n l).
Proof. intros Hn. split; [done|]. intros p. simpl. rewrite lookup_empty. by intros []. Qed.

Lemma heap_wf_no_blocks h : hp_blocks h = ∅ -> (0 < hp_next h)%N -> heap_wf h.
Proof. destruct h as [b n l]. simpl. intros -> Hn. by apply heap_wf_empty. Qed.

Lemma c_malloc_ok n h :
  n <= hp_limit h ->
  c_malloc n h = Done (hp_next h, mk_heap (<[hp_next h := mk_block n []]> (hp_blocks h))
                                         (hp_next h + 1)%N (hp_limit h)).
Proof. intros H. unfold c_malloc. by rewrite (proj2 (Z.leb_le _ _) H). Qed.

Lemma c_CBytes_ok b h :
  len b <= hp_limit h ->
  c_CBytes b h = Done (hp_next h, mk_heap (<[hp_next h := mk_block (len b) b]> (hp_blocks h))
                                         (hp_next h + 1)%N (hp_limit h)).
Proof. intros H. unfold c_CBytes. by rewrite (proj2 (Z.leb_le _ _) H). Qed.

Lemma c_free_live p b h :
  p <> null -> hp_blocks h !! p = Some b ->
  c_free p h = Done (tt, mk_heap (delete p (hp_blocks h)) (hp_next h) (hp_limit h)).
Proof. intros Hp Hb. unfold c_free. rewrite decide_False by done. by rewrite Hb. Qed.

Lemma c_free_null h : c_free null h = Done (tt, h).
Proof. reflexivity. Qed.

Lemma c_free_dead p h :
  p <> null -> hp_blocks h !! p = None -> c_free p h = Crash InvalidFree.
Proof. intros Hp Hb. unfold c_free. rewrite decide_False by done. by rewrite Hb. Qed.

Lemma read_prefix_data b n :
  0 <= n <= len (blk_data b) -> read_prefix b n = take (Z.to_nat n) (blk_data b).
Proof.
  intros H. unfold read_prefix, len in *.
  replace (Z.to_nat n - length (blk_data b))%nat with 0%nat by lia.
  by rewrite app_nil_r.
Qed.

Lemma length_read_prefix b n : length (read_prefix b n) = Z.to_nat n.
Proof.
  unfold read_prefix. rewrite length_app, length_take, length_replicate. lia.
Qed.

Lemma c_GoBytes_ok p n b h :
  0 <= n -> hp_blocks h !! p = Some b -> n <= blk_size b ->
  c_GoBytes p n h = Done (read_prefix b n, h).
Proof.
  intros Hn Hb Hs. unfold c_GoBytes.
  rewrite (proj2 (Z.ltb_ge _ _) Hn).
  destruct (Z.eqb_spec n 0) as [->|_].
  - unfold read_prefix. by rewrite take_0.
  - rewrite Hb. by rewrite (proj2 (Z.leb_le _ _) Hs).
Qed.

Lemma c_GoBytes_neg p n h : n < 0 -> c_GoBytes p n h = Crash BadLength.
Proof. intros Hn. unfold c_GoBytes. by rewrite (proj2 (Z.ltb_lt _ _) Hn). Qed.

Lemma c_store_ok p d b h :
  hp_blocks h !! p = Some b -> len d <= blk_size b ->
  c_store p d h = Done (tt, mk_heap (<[p := mk_block (blk_size b) (d ++ drop (length d) (blk_data b))]>
                                       (hp_blocks h)) (hp_next h) (hp_limit h)).
Proof. intros Hb Hs. unfold c_store. rewrite Hb. by rewrite (proj2 (Z.leb_le _ _) Hs). Qed.

Lemma c_malloc_wf n h p h' : heap_wf h -> c_malloc n h = Done (p, h') -> heap_wf h'.
Proof.
  unfold c_malloc. intros [Hn Hwf] E. destruct (n <=? hp_limit h); [|done].
  injection E as <- <-. split; simpl; [lia|]. intros q. rewrite lookup_insert.
  case_decide as Hq; [subst; intros _; lia|].
  intros Hs. specialize (Hwf q Hs). lia.
Qed.

Lemma c_free_wf p h h' : heap_wf h -> c_free p h = Done (tt, h') -> heap_wf h'.
Proof.
  unfold c_free. intros [Hn Hwf] E. case_decide; [by injection E as <-; split|].
  destruct (hp_blocks h !! p); [|done]. injection E as <-.
  split; [done|]. intros q. simpl. rewrite lookup_delete. case_decide; [intros []; done|]. apply Hwf.
Qed.

(** Allocating a fresh block and freeing it again leaves the live blocks
    as they were. *)
Lemma delete_fresh_insert (m : gmap N block) p b :
  m !! p = None -> delete p (<[p := b]> m) = m.
Proof. intros H. by rewrite delete_insert_eq, delete_id. Qed.

#[export] Hint Resolve c_malloc_wf c_free_wf heap_wf_fresh heap_wf_fresh2 : go.

