(* ===== verification/Soxr.v ===== *)
(** * The libsoxr interface the package calls

    [src/resample.go] reaches libsoxr only through [soxr_io_spec],
    [soxr_quality_spec], [soxr_runtime_spec], [soxr_create],
    [soxr_process], [soxr_clear] and [soxr_delete].  libsoxr is not part
    of the repository: the class [Soxr] below states the shape of these
    calls (arguments after cgo's conversions, results as the C function
    returns them), and [SoxrLaws] the part of soxr's documented contract
    that the package relies on (soxr.h): [soxr_process] produces at most
    [olen] frames, consumes at most [ilen] frames, and writes whole output
    frames of [channels * size(otype)] bytes.

    A [soxr_error_t] is [char const *]: NULL ([None]) or a pointer to a
    message in soxr's static storage ([Some msg]); the caller does not own
    it. *)

From S2P Require Import Prelude GoNum.

Open Scope Z_scope.

(** [soxr_io_spec_t] built by [soxr_io_spec(itype, otype)]. *)
Record soxr_io_spec_t := mk_io_spec { io_itype : Z; io_otype : Z }.

(** [soxr_quality_spec_t] built by [soxr_quality_spec(recipe, flags)]. *)
Record soxr_quality_spec_t := mk_quality_spec { q_recipe : Z; q_flags : Z }.

(** [soxr_runtime_spec_t] built by [soxr_runtime_spec(num_threads)]. *)
Record soxr_runtime_spec_t := mk_runtime_spec { rt_num_threads : Z }.

Definition soxr_error_t := option string.

Definition soxr_io_spec (itype otype : Z) : soxr_io_spec_t := mk_io_spec itype otype.
Definition soxr_quality_spec (recipe flags : Z) : soxr_quality_spec_t := mk_quality_spec recipe flags.
Definition soxr_runtime_spec (n : Z) : soxr_runtime_spec_t := mk_runtime_spec n.

(** Sample sizes of soxr's interleaved datatypes [SOXR_FLOAT32_I] (0),
    [SOXR_FLOAT64_I] (1), [SOXR_INT32_I] (2), [SOXR_INT16_I] (3). *)
Definition soxr_datatype_size (t : Z) : Z :=
  match t with 0 => 4 | 1 => 8 | 2 => 4 | 3 => 2 | _ => 0 end.

Class Soxr := {
  (** the stream state behind one [soxr_t] *)
  soxr_state : Type;
  (** [soxr_create(in_rate, out_rate, num_channels, &error, &io, &q, &rt)]:
      the new stream (NULL when creation failed) and [*error] *)
  soxr_create : float -> float -> Z -> soxr_io_spec_t -> soxr_quality_spec_t ->
                soxr_runtime_spec_t -> option soxr_state * soxr_error_t;
  (** [soxr_process(p, in, ilen, idone, out, olen, odone)]: [in] is the
      input block ([None] for NULL, the flush request), [idone] tells
      whether an [idone] pointer was passed; the result is the new state,
      [*idone], [*odone], the bytes stored at [out] and the error *)
  soxr_process : soxr_state -> option (list byte) -> Z -> bool -> Z ->
                 soxr_state * (Z * Z * list byte * soxr_error_t);
  (** [soxr_clear(p)] *)
  soxr_clear : soxr_state -> soxr_state * soxr_error_t
}.

Section Laws.
Context `{SX : Soxr}.

Class SoxrLaws := {
  (** bytes in one output frame of a stream *)
  soxr_oframe : soxr_state -> Z;
  soxr_create_oframe ir or ch io q rt st e :
    soxr_create ir or ch io q rt = (Some st, e) ->
    soxr_oframe st = ch * soxr_datatype_size (io_otype io);
  soxr_process_oframe st i ilen b olen st' r :
    soxr_process st i ilen b olen = (st', r) -> soxr_oframe st' = soxr_oframe st;
  soxr_clear_oframe st st' e :
    soxr_clear st = (st', e) -> soxr_oframe st' = soxr_oframe st;
  soxr_process_out st i ilen b olen st' idone odone out e :
    0 <= olen ->
    soxr_process st i ilen b olen = (st', (idone, odone, out, e)) ->
    0 <= odone <= olen /\ len out = odone * soxr_oframe st;
  soxr_process_in st i ilen b olen st' idone odone out e :
    0 <= ilen ->
    soxr_process st i ilen b olen = (st', (idone, odone, out, e)) ->
    0 <= idone <= ilen
}.
End Laws.
