(* ===== verification/RefSoxr.v ===== *)
(** * A model engine for the libsoxr interface

    An executable instance of [Soxr] that satisfies [SoxrLaws], used to
    run the package's functions on concrete inputs.  It is not libsoxr's
    algorithm: it is a nearest-neighbour resampler for integral rates
    [ir -> or] (output frame [k] repeats input frame [floor(k * ir / or)]),
    with a fixed latency of [ref_latency] frames held back until a flush.
    Two behaviours are taken from libsoxr's [soxr_process] because the
    package's correctness depends on them:
    - when the caller passes an [idone] pointer, the engine consumes at
      most [ceil(olen * ir / or)] input frames (soxr.c clamps [ilen] the
      same way), so it may consume fewer frames than offered;
    - a call with a NULL input is a flush: every pending frame may go out.
    Samples are not converted between formats: an output frame is the
    input frame cut or zero-padded to the output frame size. *)

From S2P Require Import Prelude GoNum Soxr.

Open Scope Z_scope.

Definition ref_latency : Z := 16.

Record ref_state := mk_ref {
  rf_ir : Z;                       (** input rate *)
  rf_or : Z;                       (** output rate *)
  rf_iframe : Z;                   (** bytes per input frame *)
  rf_oframe : Z;                   (** bytes per output frame *)
  rf_consumed : Z;                 (** input frames consumed so far *)
  rf_pending : list (list byte)    (** input frames of outputs not yet emitted *)
}.

Definition ceil_div (a b : Z) : Z := (a + b - 1) / b.

(** How many output frames repeat input frame [j]. *)
Definition copies (ir or j : Z) : Z := ceil_div ((j + 1) * or) ir - ceil_div (j * or) ir.

(** The first [k] frames of [size] bytes of a buffer. *)
Fixpoint split_frames (k size : nat) (b : list byte) : list (list byte) :=
  match k with
  | O => []
  | S k' => take size b :: split_frames k' size (drop size b)
  end.

(** The output frames due to input frames [j], [j+1], ... *)
Fixpoint expand (ir or j : Z) (fs : list (list byte)) : list (list byte) :=
  match fs with
  | [] => []
  | f :: fs' => replicate (Z.to_nat (copies ir or j)) f ++ expand ir or (j + 1) fs'
  end.

Definition to_oframe (oframe : Z) (f : list byte) : list byte :=
  take (Z.to_nat oframe) (f ++ replicate (Z.to_nat oframe) Byte.x00).

(** An integral, positive rate. *)
Definition integral_rate (f : float) : option Z :=
  match float_trunc f with
  | Some z => if (0 <? z) && PrimFloat.eqb (float64_of_int z) f then Some z else None
  | None => None
  end.

(** How many frames go out, and their bytes. *)
Definition emit_count (olen ready : Z) : Z := Z.max 0 (Z.min olen ready).

Definition emit_bytes (oframe n : Z) (pending : list (list byte)) : list byte :=
  concat (map (to_oframe oframe) (take (Z.to_nat n) pending)).

Definition ref_create (ir or : float) (ch : Z) (io : soxr_io_spec_t) (_ : soxr_quality_spec_t)
    (_ : soxr_runtime_spec_t) : option ref_state * soxr_error_t :=
  match integral_rate ir, integral_rate or with
  | Some i, Some o =>
      if ch <=? 0 then (None, Some "invalid num_channels"%string)
      else if (soxr_datatype_size (io_itype io) =? 0) || (soxr_datatype_size (io_otype io) =? 0)
      then (None, Some "invalid datatype"%string)
      else (Some (mk_ref i o (ch * soxr_datatype_size (io_itype io))
                         (ch * soxr_datatype_size (io_otype io)) 0 []), None)
  | _, _ => (None, Some "invalid io_ratio"%string)
  end.

Definition ref_process (st : ref_state) (inp : option (list byte)) (ilen : Z) (want_idone : bool)
    (olen : Z) : ref_state * (Z * Z * list byte * soxr_error_t) :=
  let '(take_in, flushing) :=
    match inp with
    | None => (0, true)
    | Some data =>
        let offered := if want_idone then Z.min ilen (Z.max 0 (ceil_div (olen * rf_ir st) (rf_or st)))
                       else ilen in
        (Z.max 0 (Z.min offered (len data / Z.max 1 (rf_iframe st))), false)
    end in
  let fs := match inp with
            | None => []
            | Some data => split_frames (Z.to_nat take_in) (Z.to_nat (rf_iframe st)) data
            end in
  let pending := rf_pending st ++ expand (rf_ir st) (rf_or st) (rf_consumed st) fs in
  let ready := if flushing then len pending else Z.max 0 (len pending - ref_latency) in
  let n := emit_count olen ready in
  (mk_ref (rf_ir st) (rf_or st) (rf_iframe st) (rf_oframe st) (rf_consumed st + take_in)
          (drop (Z.to_nat n) pending),
   (take_in, n, emit_bytes (rf_oframe st) n pending, None)).

Definition ref_clear (st : ref_state) : ref_state * soxr_error_t :=
  (mk_ref (rf_ir st) (rf_or st) (rf_iframe st) (rf_oframe st) 0 [], None).

#[export] Instance ref_soxr : Soxr := {|
  soxr_state := ref_state;
  soxr_create := ref_create;
  soxr_process := ref_process;
  soxr_clear := ref_clear
|}.

(** ** The model engine meets the contract *)

Lemma length_to_oframe o f : length (to_oframe o f) = Z.to_nat o.
Proof. unfold to_oframe. rewrite length_take, length_app, length_replicate. lia. Qed.

Lemma len_concat_oframes o fs :
  len (concat (map (to_oframe o) fs)) = Z.of_nat (length fs) * Z.max 0 o.
Proof.
  unfold len. induction fs as [|f fs IH]; [done|]. simpl.
  rewrite length_app, length_to_oframe. lia.
Qed.

Lemma emit_ok o olen ready (P : list (list byte)) :
  0 <= olen -> ready <= len P ->
  0 <= emit_count olen ready <= olen /\
  len (emit_bytes o (emit_count olen ready) P) = emit_count olen ready * Z.max 0 o.
Proof.
  unfold emit_count, emit_bytes. intros H1 H2. split; [lia|].
  rewrite len_concat_oframes, length_take. unfold len in *.
  rewrite Nat.min_l by lia. rewrite Z2Nat.id by lia. done.
Qed.

#[export] Instance ref_soxr_laws : SoxrLaws (SX := ref_soxr).
Proof.
  refine {| soxr_oframe st := Z.max 0 (rf_oframe st) |}; simpl.
  - intros ir or ch io q rt st e. unfold ref_create.
    destruct (integral_rate ir), (integral_rate or); try discriminate.
    destruct (Z.leb_spec ch 0); [discriminate|].
    destruct (_ || _); [discriminate|]. intros [= <- _]. simpl.
    destruct (io_otype io) as [|[| |]|]; simpl; try destruct p; lia.
  - intros st i ilen b olen st' r. unfold ref_process.
    destruct i; intros [= <- _]; reflexivity.
  - intros st st' e [= <- _]. reflexivity.
  - intros st i ilen b olen st' idone odone out e Holen. unfold ref_process.
    intros E. destruct i; cbv beta iota zeta in E; injection E as <- <- <- <- <-;
      apply emit_ok; unfold len, ref_latency; lia.
  - intros st i ilen b olen st' idone odone out e Hilen. unfold ref_process.
    intros E. destruct i; injection E as <- <- <- <- <-; [|lia].
    destruct b; lia.
Defined.

(** A model engine whose [soxr_process] reports the error [msg] on every
    call (as libsoxr does once a stream has failed), for the error paths. *)
Definition faulty_soxr (msg : string) : Soxr := {|
  soxr_state := ref_state;
  soxr_create := ref_create;
  soxr_process st _ _ _ _ := (st, (0, 0, [], Some msg));
  soxr_clear := ref_clear
|}.

#[export] Instance faulty_soxr_laws msg : SoxrLaws (SX := faulty_soxr msg).
Proof.
  refine (@Build_SoxrLaws (faulty_soxr msg) (fun st => Z.max 0 (rf_oframe st)) _ _ _ _ _); simpl.
  - intros ir or ch io q rt st e. unfold ref_create.
    destruct (integral_rate ir), (integral_rate or); try discriminate.
    destruct (Z.leb_spec ch 0); [discriminate|].
    destruct (_ || _); [discriminate|]. intros [= <- _]. simpl.
    destruct (io_otype io) as [|[| |]|]; simpl; try destruct p; lia.
  - by intros st i ilen b olen st' r [= <- _].
  - intros st st' e [= <- _]. reflexivity.
  - intros st i ilen b olen st' idone odone out e Holen [= <- <- <- <- _]. done.
  - intros st i ilen b olen st' idone odone out e Hilen [= <- <- <- <- _]. lia.
Defined.
