(* ===== verification/IoWriter.v ===== *)
(** * The destination [io.Writer]

    A [Resampler] holds an [io.Writer] interface value, [destination], and
    calls [destination.Write] from [Write] and [flush]; [Reset] replaces
    it.  A writer is named by a [writer_id]; an interface value is
    [option writer_id], [None] being Go's nil.  Writers share one log of
    every write they accepted, in order, so that statements about the
    order of bytes across writers (flush to the old destination before
    the new one) can be made.  What a writer does with a call is the
    class [IoWriter]: it may depend on the writer and on the log so far,
    and returns Go's [(n, err)].  [IoWriterLaws] is the [io.Writer]
    contract: [0 <= n <= len(p)], and [err != nil] when [n < len(p)]. *)

From S2P Require Import Prelude GoNum.

Open Scope Z_scope.

Definition writer_id := N.
Definition write_log := list (writer_id * list byte).

Class IoWriter := {
  io_write : writer_id -> write_log -> list byte -> Z * option string
}.

Class IoWriterLaws `{IoWriter} := {
  io_write_count w l p n e :
    io_write w l p = (n, e) -> 0 <= n <= len p;
  io_write_short w l p n e :
    io_write w l p = (n, e) -> n < len p -> e <> None
}.

(** The bytes of a call that reached writer [w]: the first [n]. *)
Definition accepted (n : Z) (p : list byte) : list byte := take (Z.to_nat n) p.

(** What one writer has received, in order. *)
Fixpoint received (w : writer_id) (l : write_log) : list byte :=
  match l with
  | [] => []
  | (w', b) :: l' => if decide (w' = w) then b ++ received w l' else received w l'
  end.

Lemma received_app w l1 l2 : received w (l1 ++ l2) = received w l1 ++ received w l2.
Proof.
  induction l1 as [|[w' b] l1 IH]; [done|]. simpl. rewrite IH.
  case_decide; [by rewrite app_assoc|done].
Qed.

Lemma received_cons_same w b l : received w ((w, b) :: l) = b ++ received w l.
Proof. simpl. by rewrite decide_True. Qed.

Lemma received_cons_other w w' b l : w' <> w -> received w ((w', b) :: l) = received w l.
Proof. intros H. simpl. by rewrite decide_False. Qed.

Lemma received_nil w : received w [] = [].
Proof. reflexivity. Qed.

Lemma accepted_all n p : n = len p -> accepted n p = p.
Proof. intros ->. unfold accepted, len. rewrite Nat2Z.id. apply firstn_all. Qed.

#[export] Hint Rewrite received_app received_cons_same received_nil : go.

(** ** Concrete writers

    [mem_writers bad] is a family of in-memory writers (like
    [bytes.Buffer] or an [os.File] on a healthy disk) in which the writers
    [w] with [bad w = true] fail every call with ["write error"] and
    accept nothing. *)
Definition mem_writers (bad : writer_id -> bool) : IoWriter := {|
  io_write w _ p := if bad w then (0, Some "write error"%string) else (len p, None)
|}.

#[export] Instance mem_writers_laws bad : @IoWriterLaws (mem_writers bad).
Proof.
  split; simpl; intros w l p n e E; destruct (bad w); injection E as <- <-;
    pose proof (len_nonneg p); try lia; done.
Qed.
