(* ===== verification/Resampler.v ===== *)
(** * The [Resampler] of [src/resample.go]

    The world a call runs in ([world]): the C heap, the live [soxr_t]
    streams (a handle is a non-zero [N]; [0] is the nil [soxr_t]), the log
    of writes that reached [io.Writer]s, and the package variable
    [threads].  The struct [Resampler] has the fields of the Go struct.
    [New], [Write], [flush], [Close] and [Reset] translate the Go bodies
    statement by statement, cgo conversions and [C.free] calls included;
    the [goto cleanup] of [Write] and [flush] becomes a sequence that
    computes the result and then runs the cleanup block.  Methods on
    [*Resampler] that assign a field return the updated struct.

    The theorems: the result of every early return of each method; the
    full successful run of [Write], [Close] and [Reset]; the error paths;
    that the temporary C buffers are released on every path that returns
    (no leak); and the places where the code departs from its contract
    (see the findings in each theorem's comment). *)

From S2P Require Import Prelude GoNum CHeap Soxr IoWriter.

Open Scope Z_scope.

(** ** Constants of the package *)

(** Quality settings. *)
Definition Quick : Z := 0.
Definition LowQ : Z := 1.
Definition MediumQ : Z := 2.
Definition HighQ : Z := 4.
Definition VeryHighQ : Z := 6.

(** Sample formats, numbered as soxr's interleaved datatypes. *)
Definition F32 : Z := 0.
Definition F64 : Z := 1.
Definition I32 : Z := 2.
Definition I16 : Z := 3.

(** The [error] values the package returns. *)
Inductive go_error : Type :=
| ErrWriterNil                 (** "io.Writer is nil" *)
| ErrInvalidRates              (** "invalid input or output sampling rates" *)
| ErrInvalidChannels           (** "invalid channels number" *)
| ErrInvalidQuality            (** "invalid quality setting" *)
| ErrInvalidFormat             (** "invalid format setting" *)
| ErrSoxr (msg : string)       (** errors.New(C.GoString(soxErr)) *)
| ErrResamplerNil              (** "soxr resampler is nil" *)
| ErrIncompleteFrame           (** "incomplete input frame data" *)
| ErrNotEnoughInput            (** "not enough input to generate output" *)
| ErrWrite (msg : string).     (** the error of destination.Write *)

#[export] Instance go_error_eq_dec : EqDecision go_error.
Proof. solve_decision. Defined.

Definition error_text (e : go_error) : string :=
  match e with
  | ErrWriterNil => "io.Writer is nil"
  | ErrInvalidRates => "invalid input or output sampling rates"
  | ErrInvalidChannels => "invalid channels number"
  | ErrInvalidQuality => "invalid quality setting"
  | ErrInvalidFormat => "invalid format setting"
  | ErrSoxr m => m
  | ErrResamplerNil => "soxr resampler is nil"
  | ErrIncompleteFrame => "incomplete input frame data"
  | ErrNotEnoughInput => "not enough input to generate output"
  | ErrWrite m => m
  end%string.

(** [sizeOf] of [New]: the byte size of a sample format. *)
Definition sizeOf (format : Z) : Z * option go_error :=
  if format =? F64 then (8, None)
  else if format =? F32 then (4, None)
  else if format =? I32 then (4, None)
  else if format =? I16 then (2, None)
  else (0, Some ErrInvalidFormat).

(** The frame sizes [sizeOf] can return: 2, 4 or 8 bytes. *)
Definition frame_size_ok (n : Z) : bool := (n =? 2) || (n =? 4) || (n =? 8).

(** [C.GoString(soxErr)]: [""] for NULL. *)
Definition go_string (e : soxr_error_t) : string :=
  match e with None => ""%string | Some s => s end.

(** The test [C.GoString(soxErr) != "" && C.GoString(soxErr) != "0"]. *)
Definition soxr_failed (e : soxr_error_t) : bool :=
  negb (String.eqb (go_string e) "") && negb (String.eqb (go_string e) "0").

(** [int(float64(framesIn) * (r.outRate / r.inRate))]. *)
Definition frames_out (inRate outRate : float) (framesIn : Z) : Z :=
  int_of_float64 (float64_of_int framesIn * (outRate / inRate))%float.

Section Resampler.
Context `{SX : Soxr} `{IW : IoWriter}.

Record world := mk_world {
  w_heap : heap;
  w_soxr : gmap N soxr_state;   (** live soxr_t streams *)
  w_next_soxr : N;              (** the next fresh soxr_t address *)
  w_log : write_log;            (** writes that reached an io.Writer *)
  w_threads : Z                 (** the package variable [threads] *)
}.

Definition with_heap (h : heap) (w : world) : world :=
  mk_world h (w_soxr w) (w_next_soxr w) (w_log w) (w_threads w).
Definition with_soxr (s : gmap N soxr_state) (w : world) : world :=
  mk_world (w_heap w) s (w_next_soxr w) (w_log w) (w_threads w).
Definition with_log (l : write_log) (w : world) : world :=
  mk_world (w_heap w) (w_soxr w) (w_next_soxr w) l (w_threads w).

(** The package's [init]: [threads = runtime.NumCPU()], for a machine
    with [numCPU] CPUs. *)
Definition init (numCPU : Z) : M world unit :=
  modify (fun w => mk_world (w_heap w) (w_soxr w) (w_next_soxr w) (w_log w) numCPU).

(** The Go struct [Resampler]. *)
Record Resampler := mk_resampler {
  resampler : N;                      (** C.soxr_t; 0 is nil *)
  inRate : float;
  outRate : float;
  channels : Z;
  inFrameSize : Z;
  outFrameSize : Z;
  destination : option writer_id      (** io.Writer; None is nil *)
}.

Definition nil_soxr : N := 0%N.

Definition set_resampler (r : Resampler) (p : N) : Resampler :=
  mk_resampler p (inRate r) (outRate r) (channels r) (inFrameSize r) (outFrameSize r) (destination r).
Definition set_destination (r : Resampler) (d : option writer_id) : Resampler :=
  mk_resampler (resampler r) (inRate r) (outRate r) (channels r) (inFrameSize r) (outFrameSize r) d.

(** *** Effects on the world *)

Definition on_heap {A} (m : M heap A) : M world A :=
  fun w => match m (w_heap w) with
           | Done (a, h) => Done (a, with_heap h w)
           | Crash p => Crash p
           end.

Definition live_soxr (p : N) : M world soxr_state :=
  fun w => match w_soxr w !! p with
           | Some st => Done (st, w)
           | None => Crash UseAfterDelete
           end.

(** [soxr_create]: a fresh handle when soxr returns a stream. *)
Definition soxr_create_call ir or ch io q rt : M world (N * soxr_error_t) :=
  fun w => match soxr_create ir or ch io q rt with
           | (Some st, e) =>
               let p := w_next_soxr w in
               Done ((p, e), mk_world (w_heap w) (<[p := st]> (w_soxr w)) (p + 1)%N
                                      (w_log w) (w_threads w))
           | (None, e) => Done ((nil_soxr, e), w)
           end.

(** [soxr_process(p, in, ilen, idone?, out, olen, &odone)]: soxr reads
    the input block, stores its output at [out]. *)
Definition soxr_process_call (p : N) (inp : option N) (ilen : Z) (want_idone : bool)
    (out : N) (olen : Z) : M world (Z * Z * soxr_error_t) :=
  let* st := live_soxr p in
  let* data := match inp with
               | None => ret None
               | Some q => let* d := on_heap (c_read q) in ret (Some d)
               end in
  let '(st', (idone, odone, bytes, e)) := soxr_process st data ilen want_idone olen in
  let* _ := on_heap (c_store out bytes) in
  let* _ := modify (fun w => with_soxr (<[p := st']> (w_soxr w)) w) in
  ret (idone, odone, e).

Definition soxr_clear_call (p : N) : M world soxr_error_t :=
  let* st := live_soxr p in
  let '(st', e) := soxr_clear st in
  let* _ := modify (fun w => with_soxr (<[p := st']> (w_soxr w)) w) in
  ret e.

Definition soxr_delete_call (p : N) : M world unit :=
  let* _ := live_soxr p in
  modify (fun w => with_soxr (delete p (w_soxr w)) w).

(** [C.free(unsafe.Pointer(soxErr))]: NULL is fine; a message of soxr
    lives in soxr's static storage, not in a malloc'd block. *)
Definition c_free_error (e : soxr_error_t) : M world unit :=
  match e with
  | None => ret tt
  | Some _ => crash InvalidFree
  end.

(** [_, err = r.destination.Write(b)]. *)
Definition dest_write (d : option writer_id) (b : list byte) : M world (option go_error) :=
  match d with
  | None => crash NilDereference
  | Some wid =>
      fun w => let '(n, e) := io_write wid (w_log w) b in
               Done (option_map ErrWrite e, with_log (w_log w ++ [(wid, accepted n b)]) w)
  end.

(** [n * r.channels * r.outFrameSize] in Go [int] arithmetic. *)
Definition out_bytes (r : Resampler) (n : Z) : Z :=
  int_mul (int_mul n (channels r)) (outFrameSize r).

(** *** [New] *)

(** The part of [New] after validation: the soxr specs, [soxr_create],
    the error test and the construction of the struct. *)
Definition New_tail (writer : option writer_id) (inputRate outputRate : float)
    (channels inFormat outFormat quality inSize outSize : Z)
    : M world (option Resampler * option go_error) :=
  let* w := get in
  let ioSpec := soxr_io_spec (c_uint inFormat) (c_uint outFormat) in
  let qSpec := soxr_quality_spec (c_ulong quality) 0 in
  let runtimeSpec := soxr_runtime_spec (c_uint (w_threads w)) in
  let* '(soxr, soxErr) :=
    soxr_create_call inputRate outputRate (c_uint channels) ioSpec qSpec runtimeSpec in
  if soxr_failed soxErr then
    let* _ := c_free_error soxErr in
    ret (None, Some (ErrSoxr (go_string soxErr)))
  else
    let r := mk_resampler soxr inputRate outputRate channels inSize outSize writer in
    let* _ := c_free_error soxErr in
    ret (Some r, None).

Definition New (writer : option writer_id) (inputRate outputRate : float)
    (channels inFormat outFormat quality : Z) : M world (option Resampler * option go_error) :=
  match writer with
  | None => ret (None, Some ErrWriterNil)
  | Some _ =>
    if float_le_zero inputRate || float_le_zero outputRate then ret (None, Some ErrInvalidRates)
    else if channels =? 0 then ret (None, Some ErrInvalidChannels)
    else if (quality <? 0) || (6 <? quality) then ret (None, Some ErrInvalidQuality)
    else
      let '(inSize, err) := sizeOf inFormat in
      match err with Some e => ret (None, Some e) | None =>
      let '(outSize, err) := sizeOf outFormat in
      match err with Some e => ret (None, Some e) | None =>
      New_tail writer inputRate outputRate channels inFormat outFormat quality inSize outSize
      end end
  end.

(** *** [flush] *)
Definition flush_frames : Z := 4096 * 16.

(** The part of [flush] after [soxr_process] returns. *)
Definition flush_tail (r : Resampler) (dataOut : N) (done : Z) (soxErr : soxr_error_t)
    : M world (option go_error) :=
  let* err :=
    if soxr_failed soxErr then ret (Some (ErrSoxr (go_string soxErr)))
    else
      let* b := on_heap (c_GoBytes dataOut (c_int (out_bytes r (int_of_size_t done)))) in
      dest_write (destination r) b in
  let* _ := on_heap (c_free dataOut) in
  let* _ := c_free_error soxErr in
  ret err.

Definition flush (r : Resampler) : M world (option go_error) :=
  let framesOut := flush_frames in
  let* dataOut := on_heap (c_malloc (c_size_t (out_bytes r framesOut))) in
  let* '(_, done, soxErr) :=
    soxr_process_call (resampler r) None 0 false dataOut (c_size_t framesOut) in
  flush_tail r dataOut done soxErr.

(** *** [Write] *)

(** The part of [Write] after [soxr_process] returns: the error test,
    the copy to the destination and the [cleanup] block. *)
Definition Write_tail (r : Resampler) (p : list byte) (dataIn dataOut : N) (done : Z)
    (soxErr : soxr_error_t) : M world (Z * option go_error) :=
  let* '(i, err) :=
    if soxr_failed soxErr then ret (0, Some (ErrSoxr (go_string soxErr)))
    else
      let* b := on_heap (c_GoBytes dataOut (c_int (out_bytes r (int_of_size_t done)))) in
      let* err := dest_write (destination r) b in
      ret (match err with None => len p | Some _ => 0 end, err) in
  let* _ := on_heap (c_free dataIn) in
  let* _ := on_heap (c_free dataOut) in
  let* _ := c_free_error soxErr in
  ret (i, err).

Definition Write (r : Resampler) (p : list byte) : M world (Z * option go_error) :=
  if decide (resampler r = nil_soxr) then ret (0, Some ErrResamplerNil)
  else if len p =? 0 then ret (0, None)
  else
    let* q := go_div (len p) (inFrameSize r) in
    let* framesIn := go_div q (channels r) in
    if framesIn =? 0 then ret (0, Some ErrIncompleteFrame)
    else
      let framesOut := frames_out (inRate r) (outRate r) framesIn in
      if framesOut =? 0 then ret (0, Some ErrNotEnoughInput)
      else
        let* dataIn := on_heap (c_CBytes p) in
        let* dataOut := on_heap (c_malloc (c_size_t (out_bytes r framesOut))) in
        let* '(_, done, soxErr) :=
          soxr_process_call (resampler r) (Some dataIn) (c_size_t framesIn) true
                            dataOut (c_size_t framesOut) in
        Write_tail r p dataIn dataOut done soxErr.

(** *** [Close] *)
Definition Close (r : Resampler) : M world (Resampler * option go_error) :=
  if decide (resampler r = nil_soxr) then ret (r, Some ErrResamplerNil)
  else
    let* err := flush r in
    let* _ := soxr_delete_call (resampler r) in
    ret (set_resampler r nil_soxr, err).

(** *** [Reset] *)
Definition Reset (r : Resampler) (writer : option writer_id) : M world (Resampler * option go_error) :=
  if decide (resampler r = nil_soxr) then ret (r, Some ErrResamplerNil)
  else
    let* err := flush r in
    let r := set_destination r writer in
    let* _ := soxr_clear_call (resampler r) in
    ret (r, err).

End Resampler.

(** [len(p) / r.inFrameSize / r.channels] when the sizes are positive. *)
Definition frames_in (inFrameSize channels : Z) (p : list byte) : Z :=
  len p / inFrameSize / channels.

(** ** Step lemmas: each effect of a method on the world *)
Section Steps.
Context `{SX : Soxr} `{IW : IoWriter}.

Lemma on_heap_done {A} (m : M heap A) w a h :
  m (w_heap w) = Done (a, h) -> on_heap m w = Done (a, with_heap h w).
Proof. intros H. unfold on_heap. by rewrite H. Qed.

Lemma on_heap_crash {A} (m : M heap A) w p :
  m (w_heap w) = Crash p -> on_heap m w = Crash p.
Proof. intros H. unfold on_heap. by rewrite H. Qed.

Lemma with_heap_id w : with_heap (w_heap w) w = w.
Proof. by destruct w. Qed.

Lemma live_soxr_ok p w st : w_soxr w !! p = Some st -> live_soxr p w = Done (st, w).
Proof. intros H. unfold live_soxr. by rewrite H. Qed.

Lemma live_soxr_dead p w : w_soxr w !! p = None -> live_soxr p (SX := SX) w = Crash UseAfterDelete.
Proof. intros H. unfold live_soxr. by rewrite H. Qed.

(** A flush request: no input block. *)
Lemma soxr_process_call_flush p w st ilen wi out olen st' idone odone bytes e b :
  w_soxr w !! p = Some st ->
  soxr_process st None ilen wi olen = (st', (idone, odone, bytes, e)) ->
  hp_blocks (w_heap w) !! out = Some b -> len bytes <= blk_size b ->
  soxr_process_call p None ilen wi out olen w =
    Done ((idone, odone, e),
          with_soxr (<[p := st']> (w_soxr w))
            (with_heap (mk_heap (<[out := mk_block (blk_size b) (bytes ++ drop (length bytes) (blk_data b))]>
                                 (hp_blocks (w_heap w))) (hp_next (w_heap w)) (hp_limit (w_heap w))) w)).
Proof.
  intros Hst Hp Hb Hs. unfold soxr_process_call.
  step (live_soxr_ok _ _ _ Hst). rewrite bind_ret_l, Hp.
  step (on_heap_done _ _ _ _ (c_store_ok _ _ _ _ Hb Hs)). reflexivity.
Qed.

(** A call with an input block [q]. *)
Lemma soxr_process_call_input p q w st ilen wi out olen st' idone odone bytes e bi b :
  w_soxr w !! p = Some st ->
  hp_blocks (w_heap w) !! q = Some bi ->
  soxr_process st (Some (blk_data bi)) ilen wi olen = (st', (idone, odone, bytes, e)) ->
  hp_blocks (w_heap w) !! out = Some b -> len bytes <= blk_size b ->
  soxr_process_call p (Some q) ilen wi out olen w =
    Done ((idone, odone, e),
          with_soxr (<[p := st']> (w_soxr w))
            (with_heap (mk_heap (<[out := mk_block (blk_size b) (bytes ++ drop (length bytes) (blk_data b))]>
                                 (hp_blocks (w_heap w))) (hp_next (w_heap w)) (hp_limit (w_heap w))) w)).
Proof.
  intros Hst Hq Hp Hb Hs. unfold soxr_process_call.
  step (live_soxr_ok _ _ _ Hst).
  assert (Hr : c_read q (w_heap w) = Done (blk_data bi, w_heap w)) by (unfold c_read; by rewrite Hq).
  rewrite bind_assoc. step (on_heap_done _ _ _ _ Hr). rewrite bind_ret_l, with_heap_id, Hp.
  step (on_heap_done _ _ _ _ (c_store_ok _ _ _ _ Hb Hs)). reflexivity.
Qed.

Lemma dest_write_ok wid b w n e :
  io_write wid (w_log w) b = (n, e) ->
  dest_write (Some wid) b w = Done (option_map ErrWrite e, with_log (w_log w ++ [(wid, accepted n b)]) w).
Proof. intros H. unfold dest_write. by rewrite H. Qed.

Lemma dest_write_nil b (w : world) : dest_write None b w = Crash NilDereference.
Proof. reflexivity. Qed.

(** The two divisions of [Write] compute [frames_in]. *)
Lemma Write_divisions size ch p :
  0 < size -> 0 < ch -> len p <= int_max ->
  int_quot (int_quot (len p) size) ch = frames_in size ch p.
Proof.
  intros Hs Hc Hl. unfold frames_in. pose proof (len_nonneg p).
  rewrite (int_quot_nonneg (len p)) by lia.
  apply int_quot_nonneg; [|lia]. split; [apply Z.div_pos; lia|].
  transitivity (len p); [apply Z.div_le_upper_bound; nia|lia].
Qed.

(** [frames_in] is the number of whole frames: [len(p) / (size * ch)]. *)
Lemma frames_in_whole size ch p :
  0 < size -> 0 < ch -> frames_in size ch p = len p / (size * ch).
Proof. intros Hs Hc. unfold frames_in. by rewrite Z.div_div by lia. Qed.

(** [n * channels * outFrameSize] computed without wrap-around. *)
Lemma out_bytes_exact r n :
  0 <= n -> 0 < channels r -> 0 < outFrameSize r ->
  n * channels r * outFrameSize r <= int_max ->
  out_bytes r n = n * channels r * outFrameSize r.
Proof.
  intros Hn Hc Ho Hm. unfold out_bytes, int_mul, int_min in *.
  rewrite (wrap_int_small (n * channels r)); [apply wrap_int_small|]; unfold int_min; nia.
Qed.

Lemma frames_in_le size ch p : 0 < size -> 0 < ch -> 0 <= frames_in size ch p <= len p.
Proof.
  intros Hs Hc. rewrite frames_in_whole by done. pose proof (len_nonneg p).
  split; [apply Z.div_pos; lia|]. assert (1 <= size * ch) by nia.
  apply Z.div_le_upper_bound; nia.
Qed.
End Steps.

(** Reduce the projections of the world and heap records. *)
Ltac world_simpl :=
  unfold with_heap, with_soxr, with_log in *;
  cbn [w_heap w_soxr w_next_soxr w_log w_threads hp_blocks hp_next hp_limit
       blk_size blk_data] in *.

#[export] Hint Resolve on_heap_done live_soxr_ok dest_write_ok : go.

(** ** [Write] *)
Section WriteProps.
Context `{SX : Soxr} {SL : SoxrLaws} `{IW : IoWriter}.

(** The world after [Write] has called [soxr_process]: both buffers
    live, the output stored, the stream advanced. *)
Definition after_process (w : world) (p : list byte) (outsize : Z) (out : list byte)
    (h : N) (st' : soxr_state) : world :=
  let pin := hp_next (w_heap w) in
  mk_world (mk_heap (<[(pin + 1)%N := mk_block outsize out]>
                       (<[(pin + 1)%N := mk_block outsize []]> (<[pin := mk_block (len p) p]> (hp_blocks (w_heap w)))))
                    (pin + 1 + 1) (hp_limit (w_heap w)))
           (<[h := st']> (w_soxr w)) (w_next_soxr w) (w_log w) (w_threads w).

(** [Write] up to the return of [soxr_process]. *)
Lemma Write_run r p w st st' idone odone out e :
  resampler r <> nil_soxr -> w_soxr w !! resampler r = Some st -> heap_wf (w_heap w) ->
  0 < inFrameSize r -> 0 < channels r -> 0 < outFrameSize r -> len p <= int_max ->
  let fi := frames_in (inFrameSize r) (channels r) p in
  let fo := frames_out (inRate r) (outRate r) fi in
  0 < fi -> 0 < fo ->
  len p <= hp_limit (w_heap w) ->
  fo * channels r * outFrameSize r <= Z.min int_max (hp_limit (w_heap w)) ->
  soxr_oframe st = channels r * outFrameSize r ->
  soxr_process st (Some p) fi true fo = (st', (idone, odone, out, e)) ->
  Write r p w = Write_tail r p (hp_next (w_heap w)) (hp_next (w_heap w) + 1) odone e
                  (after_process w p (fo * channels r * outFrameSize r) out (resampler r) st').
Proof.
  intros Hnil Hst Hwf Hi Hc Ho Hmax fi fo Hfi Hfo Hlim1 Hlim2 Hof Hproc.
  assert (Hfil : 0 <= fi <= len p) by (apply frames_in_le; lia).
  destruct (soxr_process_out st (Some p) fi true fo st' idone odone out e) as [Hod Hlen];
    [lia|exact Hproc|].
  destruct (mul3_ge fo (channels r) (outFrameSize r)) as (Hb1 & Hb2 & Hb3); [lia..|].
  pose proof (mul3_mono odone fo (channels r) (outFrameSize r) ltac:(lia) Hc Ho) as Hb4.
  assert (Hlen' : len out = odone * channels r * outFrameSize r) by (rewrite Hlen, Hof; ring).
  unfold Write. rewrite decide_False by done. rewrite (proj2 (Z.eqb_neq (len p) 0)) by lia.
  step (go_div_nonzero (len p) (inFrameSize r) w ltac:(lia)).
  step (go_div_nonzero (int_quot (len p) (inFrameSize r)) (channels r) w ltac:(lia)).
  rewrite Write_divisions by lia. fold fi fo.
  rewrite (proj2 (Z.eqb_neq fi 0)), (proj2 (Z.eqb_neq fo 0)) by lia.
  step (on_heap_done _ _ _ _ (c_CBytes_ok _ _ Hlim1)).
  rewrite out_bytes_exact, !c_size_t_small by (unfold int_max in *; lia).
  estep ltac:(apply on_heap_done, c_malloc_ok; simpl; lia).
  world_simpl.
  estep ltac:(eapply soxr_process_call_input; world_simpl;
    [ exact Hst | by rewrite lookup_insert_ne, lookup_insert_eq by lia
    | exact Hproc | by rewrite lookup_insert_eq | world_simpl; lia]).
  world_simpl. by rewrite drop_nil, app_nil_r.
Qed.

(** The common hypotheses of the theorems on [Write]'s main path: an
    open resampler whose stream is live and was created for its frame
    size, [p] holds [fi >= 1] whole frames, the frame budget [fo] is
    at least one, and malloc can provide the buffers. *)
Definition write_pre (r : Resampler) (p : list byte) (w : world) (st : soxr_state) : Prop :=
  let fi := frames_in (inFrameSize r) (channels r) p in
  let fo := frames_out (inRate r) (outRate r) fi in
  resampler r <> nil_soxr /\ w_soxr w !! resampler r = Some st /\ heap_wf (w_heap w) /\
  0 < inFrameSize r /\ 0 < channels r /\ 0 < outFrameSize r /\
  soxr_oframe st = channels r * outFrameSize r /\
  len p <= Z.min int_max (hp_limit (w_heap w)) /\ 0 < fi /\ 0 < fo /\
  fo * channels r * outFrameSize r <= Z.min (2 ^ 31 - 1) (hp_limit (w_heap w)).

(** The facts [write_pre] gives about soxr's output: [odone] whole frames
    that fit both the output buffer and a [C.int]. *)
Lemma write_pre_output r p w st st' idone odone out e :
  write_pre r p w st ->
  soxr_process st (Some p) (frames_in (inFrameSize r) (channels r) p) true
    (frames_out (inRate r) (outRate r) (frames_in (inFrameSize r) (channels r) p))
    = (st', (idone, odone, out, e)) ->
  0 <= odone /\ len out = odone * channels r * outFrameSize r /\
  len out <= Z.min (2 ^ 31 - 1)
    (frames_out (inRate r) (outRate r) (frames_in (inFrameSize r) (channels r) p) *
     channels r * outFrameSize r).
Proof.
  intros (Hnil & Hst & Hwf & Hi & Hc & Ho & Hof & Hlp & Hfi & Hfo & Hfb) Hproc.
  set (fo := frames_out _ _ _) in *.
  destruct (soxr_process_out _ _ _ _ fo _ _ _ _ _ ltac:(lia) Hproc) as [Hod Hlen].
  pose proof (mul3_mono odone fo (channels r) (outFrameSize r) ltac:(lia) Hc Ho).
  assert (len out = odone * channels r * outFrameSize r) by (rewrite Hlen, Hof; ring).
  lia.
Qed.

(** The [cleanup] block's [C.free(dataIn)] and [C.free(dataOut)] release
    the two buffers [Write] allocated, whatever was stored in them. *)
Lemma free_buffers {A} (m : gmap N block) pin lim b1 b2 b2' s ns l t (k : M world A) :
  (0 < pin)%N -> m !! pin = None -> m !! (pin + 1)%N = None ->
  (let* _ := on_heap (c_free pin) in let* _ := on_heap (c_free (pin + 1)%N) in k)
    (mk_world (mk_heap (<[(pin + 1)%N := b2']> (<[(pin + 1)%N := b2]> (<[pin := b1]> m)))
                       (pin + 1 + 1) lim) s ns l t)
  = k (mk_world (mk_heap m (pin + 2) lim) s ns l t).
Proof.
  intros Hp H1 H2.
  estep ltac:(apply on_heap_done; eapply c_free_live; world_simpl;
              [unfold null; lia | rewrite lookup_insert_ne, lookup_insert_ne, lookup_insert_eq by lia; done]).
  estep ltac:(apply on_heap_done; eapply c_free_live; world_simpl;
              [unfold null; lia | rewrite lookup_delete_ne, lookup_insert_eq by lia; done]).
  world_simpl. rewrite two_blocks_released by done.
  by replace (pin + 1 + 1)%N with (pin + 2)%N by lia.
Qed.

(** [Write]'s copy of soxr's output to the destination and its [cleanup]
    block, when soxr produced [odone] whole frames and no error. *)
Lemma Write_tail_ok r p w h st' outsize odone out wid n e :
  heap_wf (w_heap w) -> 0 <= odone -> 0 < channels r -> 0 < outFrameSize r ->
  len out = odone * channels r * outFrameSize r -> len out <= Z.min (2 ^ 31 - 1) outsize ->
  destination r = Some wid -> io_write wid (w_log w) out = (n, e) ->
  Write_tail r p (hp_next (w_heap w)) (hp_next (w_heap w) + 1) odone None
    (after_process w p outsize out h st') =
  Done ((match e with None => len p | Some _ => 0 end, option_map ErrWrite e),
        mk_world (mk_heap (hp_blocks (w_heap w)) (hp_next (w_heap w) + 2) (hp_limit (w_heap w)))
                 (<[h := st']> (w_soxr w)) (w_next_soxr w)
                 (w_log w ++ [(wid, accepted n out)]) (w_threads w)).
Proof.
  intros Hwf Hod Hc Ho Hlen Hout Hd Hw.
  destruct (mul3_ge odone (channels r) (outFrameSize r)) as (Hb5 & Hb6 & Hb7); [lia..|].
  unfold Write_tail, after_process. cbv zeta. change (soxr_failed None) with false. cbv iota.
  rewrite bind_assoc. unfold int_of_size_t.
  rewrite (wrap_int_small odone), out_bytes_exact, c_int_small, <- Hlen
    by (unfold int_min, int_max; lia).
  estep ltac:(apply on_heap_done, c_GoBytes_ok; world_simpl;
              [apply len_nonneg | by rewrite lookup_insert_eq | cbn [blk_size]; lia]).
  rewrite read_prefix_data by (simpl; lia). world_simpl.
  rewrite take_ge by (unfold len; lia).
  rewrite Hd, bind_assoc. estep ltac:(apply dest_write_ok; exact Hw). world_simpl.
  rewrite bind_ret_l, free_buffers by (first [exact (proj1 Hwf) | auto with go]).
  by destruct e.
Qed.

(** C1: On an open resampler whose stream is live, with at least one whole input frame and a non-zero frame budget, [Write] passes the whole input to [soxr_process], copies exactly the [odone] frames soxr produced to the destination, frees both C buffers, and returns [len p] with no error when the destination accepts the bytes, and [0] with the writer's error otherwise. *)
Theorem Write_spec r p w st st' idone odone out wid n e :
  write_pre r p w st ->
  soxr_process st (Some p) (frames_in (inFrameSize r) (channels r) p) true
    (frames_out (inRate r) (outRate r) (frames_in (inFrameSize r) (channels r) p))
    = (st', (idone, odone, out, None)) ->
  destination r = Some wid ->
  io_write wid (w_log w) out = (n, e) ->
  Write r p w =
    Done ((match e with None => len p | Some _ => 0 end, option_map ErrWrite e),
          mk_world (mk_heap (hp_blocks (w_heap w)) (hp_next (w_heap w) + 2) (hp_limit (w_heap w)))
                   (<[resampler r := st']> (w_soxr w)) (w_next_soxr w)
                   (w_log w ++ [(wid, accepted n out)]) (w_threads w)).
Proof.
  intros Hpre Hproc Hd Hw.
  destruct (write_pre_output _ _ _ _ _ _ _ _ _ Hpre Hproc) as (Hod & Hlen & Hout).
  destruct Hpre as (Hnil & Hst & Hwf & Hi & Hc & Ho & Hof & Hlp & Hfi & Hfo & Hfb).
  rewrite (Write_run r p w st st' idone odone out None) by (try done; unfold int_max in *; lia).
  apply Write_tail_ok; done || lia.
Qed.

(** C4: When [soxr_process] reports an error, [Write] goes to its cleanup block and calls [C.free] on the error string, which lives in soxr's static storage: the program crashes instead of returning the error. *)
Lemma Write_engine_error r p w st st' idone odone out msg :
  write_pre r p w st ->
  soxr_process st (Some p) (frames_in (inFrameSize r) (channels r) p) true
    (frames_out (inRate r) (outRate r) (frames_in (inFrameSize r) (channels r) p))
    = (st', (idone, odone, out, Some msg)) ->
  soxr_failed (Some msg) = true ->
  Write r p w = Crash InvalidFree.
Proof.
  intros (Hnil & Hst & Hwf & Hi & Hc & Ho & Hof & Hlp & Hfi & Hfo & Hfb) Hproc Hfail.
  rewrite (Write_run r p w st st' idone odone out (Some msg)) by (try done; unfold int_max in *; lia).
  unfold Write_tail, after_process. cbv zeta. rewrite Hfail, bind_ret_l.
  rewrite free_buffers by (first [exact (proj1 Hwf) | auto with go]). reflexivity.
Qed.

Lemma Write_nil_destination r p w st st' idone odone out :
  write_pre r p w st ->
  soxr_process st (Some p) (frames_in (inFrameSize r) (channels r) p) true
    (frames_out (inRate r) (outRate r) (frames_in (inFrameSize r) (channels r) p))
    = (st', (idone, odone, out, None)) ->
  destination r = None ->
  Write r p w = Crash NilDereference.
Proof.
  intros Hpre Hproc Hd.
  destruct (write_pre_output _ _ _ _ _ _ _ _ _ Hpre Hproc) as (Hod & Hlen & Hout).
  destruct Hpre as (Hnil & Hst & Hwf & Hi & Hc & Ho & Hof & Hlp & Hfi & Hfo & Hfb).
  destruct (mul3_ge odone (channels r) (outFrameSize r)) as (Hb5 & Hb6 & Hb7); [lia..|].
  rewrite (Write_run r p w st st' idone odone out None) by (try done; unfold int_max in *; lia).
  unfold Write_tail, after_process. change (soxr_failed None) with false. cbv iota.
  rewrite !bind_assoc. unfold int_of_size_t.
  rewrite (wrap_int_small odone), out_bytes_exact, c_int_small, <- Hlen
    by (unfold int_min, int_max; lia).
  estep ltac:(apply on_heap_done, c_GoBytes_ok; world_simpl;
              [apply len_nonneg | by rewrite lookup_insert_eq | cbn [blk_size]; lia]).
  rewrite Hd. apply bind_crashed. reflexivity.
Qed.

(** C24: [Write] on a closed resampler (nil [soxr_t]) returns [0] and "soxr resampler is nil" and leaves the world unchanged. *)
Theorem Write_closed r p w :
  resampler r = nil_soxr -> Write r p w = Done ((0, Some ErrResamplerNil), w).
Proof. intros H. unfold Write. by rewrite decide_True. Qed.

(** C25: [Write] of an empty slice on an open resampler returns [0] and no error without touching the world. *)
Theorem Write_empty r w :
  resampler r <> nil_soxr -> Write r [] w = Done ((0, None), w).
Proof. intros H. unfold Write. by rewrite decide_False. Qed.

(** C26: [Write] of fewer bytes than one frame ([inFrameSize * channels]) returns [0] and "incomplete input frame data" before allocating anything. *)
Theorem Write_incomplete_frame r p w :
  resampler r <> nil_soxr -> 0 < inFrameSize r -> 0 < channels r -> len p <= int_max ->
  0 < len p < inFrameSize r * channels r ->
  Write r p w = Done ((0, Some ErrIncompleteFrame), w).
Proof.
  intros Hnil Hi Hc Hmax Hlen. unfold Write. rewrite decide_False by done.
  rewrite (proj2 (Z.eqb_neq (len p) 0)) by lia.
  step (go_div_nonzero (len p) (inFrameSize r) w ltac:(lia)).
  step (go_div_nonzero (int_quot (len p) (inFrameSize r)) (channels r) w ltac:(lia)).
  rewrite Write_divisions, frames_in_whole, Z.div_small by lia. reflexivity.
Qed.

(** C27: When the frame budget [int(framesIn * outRate / inRate)] is zero, [Write] returns [0] and "not enough input to generate output" before allocating anything. *)
Theorem Write_not_enough_input r p w :
  resampler r <> nil_soxr -> 0 < inFrameSize r -> 0 < channels r -> len p <= int_max ->
  0 < frames_in (inFrameSize r) (channels r) p ->
  frames_out (inRate r) (outRate r) (frames_in (inFrameSize r) (channels r) p) = 0 ->
  Write r p w = Done ((0, Some ErrNotEnoughInput), w).
Proof.
  intros Hnil Hi Hc Hmax Hfi Hfo. unfold Write. rewrite decide_False by done.
  pose proof (frames_in_le (inFrameSize r) (channels r) p Hi Hc).
  rewrite (proj2 (Z.eqb_neq (len p) 0)) by lia.
  step (go_div_nonzero (len p) (inFrameSize r) w ltac:(lia)).
  step (go_div_nonzero (int_quot (len p) (inFrameSize r)) (channels r) w ltac:(lia)).
  rewrite Write_divisions by lia. rewrite (proj2 (Z.eqb_neq _ 0)) by lia.
  by rewrite Hfo.
Qed.
(** [C.GoBytes(dataOut, C.int(int(done)*r.channels*r.outFrameSize))]
    when the length is in [[2^31, 2^32)]: the [C.int] is negative and
    cgo panics. *)
Lemma out_GoBytes_wraps r dataOut done w :
  0 < channels r -> 0 < outFrameSize r -> 0 <= done ->
  2 ^ 31 <= done * channels r * outFrameSize r < 2 ^ 32 ->
  on_heap (c_GoBytes dataOut (c_int (out_bytes r (int_of_size_t done)))) w = Crash BadLength.
Proof.
  intros Hc Ho Hd Hb. destruct (mul3_ge done (channels r) (outFrameSize r)) as (_ & _ & Hle); [lia..|].
  unfold int_of_size_t. rewrite (wrap_int_small done), out_bytes_exact by (unfold int_min, int_max; lia).
  apply on_heap_crash, c_GoBytes_neg. rewrite c_int_wraps by lia. lia.
Qed.

(** C13: cgo's [C.int] is 32 bits: when the output of one [Write] reaches 2 GiB, [C.int(int(done)*r.channels*r.outFrameSize)] wraps to a negative length and [C.GoBytes] panics, so a large [Write] crashes after soxr has consumed its input. *)
Theorem Write_tail_cint_overflow r p dataIn dataOut done w :
  0 < channels r -> 0 < outFrameSize r -> 0 <= done ->
  2 ^ 31 <= done * channels r * outFrameSize r < 2 ^ 32 ->
  Write_tail r p dataIn dataOut done None w = Crash BadLength.
Proof.
  intros. unfold Write_tail. change (soxr_failed None) with false. cbv iota.
  rewrite bind_assoc. apply bind_crashed. by apply out_GoBytes_wraps.
Qed.
End WriteProps.

(** ** [flush], [Close] and [Reset] *)
Section FlushProps.
Context `{SX : Soxr} {SL : SoxrLaws} `{IW : IoWriter}.

(** The hypotheses under which [flush] reaches soxr: an open resampler
    whose stream is live and was created for its frame size, and a
    flush buffer of [65536] frames that malloc can provide and whose
    size fits a [C.int]. *)
Definition flush_pre (r : Resampler) (w : world) (st : soxr_state) : Prop :=
  resampler r <> nil_soxr /\ w_soxr w !! resampler r = Some st /\ heap_wf (w_heap w) /\
  0 < channels r /\ 0 < outFrameSize r /\
  soxr_oframe st = channels r * outFrameSize r /\
  flush_frames * channels r * outFrameSize r <= Z.min (2 ^ 31 - 1) (hp_limit (w_heap w)).

Theorem flush_spec r w st st' idone odone out wid n e :
  flush_pre r w st ->
  soxr_process st None 0 false flush_frames = (st', (idone, odone, out, None)) ->
  destination r = Some wid ->
  io_write wid (w_log w) out = (n, e) ->
  flush r w =
    Done (option_map ErrWrite e,
          mk_world (mk_heap (hp_blocks (w_heap w)) (hp_next (w_heap w) + 1) (hp_limit (w_heap w)))
                   (<[resampler r := st']> (w_soxr w)) (w_next_soxr w)
                   (w_log w ++ [(wid, accepted n out)]) (w_threads w)).
Proof.
  intros (Hnil & Hst & Hwf & Hc & Ho & Hof & Hfb) Hproc Hd Hw.
  destruct (soxr_process_out _ _ _ _ flush_frames _ _ _ _ _ ltac:(done) Hproc) as [Hod Hlen].
  destruct (mul3_ge flush_frames (channels r) (outFrameSize r)) as (Hb1 & Hb2 & Hb3); [done..|].
  pose proof (mul3_mono odone flush_frames (channels r) (outFrameSize r) ltac:(lia) Hc Ho) as Hb4.
  destruct (mul3_ge odone (channels r) (outFrameSize r)) as (Hb5 & Hb6 & Hb7); [lia..|].
  assert (Hlen' : len out = odone * channels r * outFrameSize r) by (rewrite Hlen, Hof; ring).
  unfold flush. cbv zeta.
  rewrite out_bytes_exact, c_size_t_small by (unfold flush_frames, int_max in *; lia).
  estep ltac:(apply on_heap_done, c_malloc_ok; lia).
  rewrite c_size_t_small by (unfold flush_frames; lia). world_simpl.
  estep ltac:(eapply soxr_process_call_flush; world_simpl;
    [ exact Hst | exact Hproc | by rewrite lookup_insert_eq | world_simpl; lia]).
  world_simpl. rewrite drop_nil, app_nil_r, insert_insert_eq.
  unfold flush_tail. change (soxr_failed None) with false. cbv iota.
  rewrite bind_assoc. unfold int_of_size_t.
  rewrite (wrap_int_small odone), out_bytes_exact, c_int_small, <- Hlen'
    by (unfold int_min, int_max, flush_frames in *; lia).
  estep ltac:(apply on_heap_done, c_GoBytes_ok; world_simpl;
              [apply len_nonneg | by rewrite lookup_insert_eq | cbn [blk_size]; lia]).
  rewrite read_prefix_data by (simpl; lia). world_simpl.
  rewrite take_ge by (unfold len; lia).
  rewrite Hd. estep ltac:(apply dest_write_ok; exact Hw). world_simpl.
  estep ltac:(apply on_heap_done; eapply c_free_live; world_simpl;
              [unfold null; destruct Hwf; lia | rewrite lookup_insert_eq; done]).
  world_simpl. unfold c_free_error. rewrite bind_ret_l. unfold ret.
  rewrite delete_insert_eq, delete_id by auto with go. done.
Qed.

(** C2: [Close] of an open resampler flushes soxr into a buffer of 65536 frames, writes the flushed frames to the destination, frees the buffer, deletes the stream and returns the resampler with a nil [soxr_t] and the writer's error. *)
Theorem Close_spec r w st st' idone odone out wid n e :
  flush_pre r w st ->
  soxr_process st None 0 false flush_frames = (st', (idone, odone, out, None)) ->
  destination r = Some wid ->
  io_write wid (w_log w) out = (n, e) ->
  Close r w =
    Done ((set_resampler r nil_soxr, option_map ErrWrite e),
          mk_world (mk_heap (hp_blocks (w_heap w)) (hp_next (w_heap w) + 1) (hp_limit (w_heap w)))
                   (delete (resampler r) (w_soxr w)) (w_next_soxr w)
                   (w_log w ++ [(wid, accepted n out)]) (w_threads w)).
Proof.
  intros Hpre Hproc Hd Hw. pose proof Hpre as (Hnil & _).
  unfold Close. rewrite decide_False by done.
  step (flush_spec r w st st' idone odone out wid n e Hpre Hproc Hd Hw).
  unfold soxr_delete_call. rewrite bind_assoc.
  estep ltac:(apply live_soxr_ok; simpl; apply lookup_insert_eq).
  rewrite bind_modify. world_simpl. by rewrite delete_insert_eq.
Qed.

(** C3: [Reset] of an open resampler flushes the pending output to the old destination, frees the flush buffer, installs the new writer, clears the stream (which stays live) and returns the writer's error of the flush. *)
Theorem Reset_spec r d w st st' idone odone out wid n e :
  flush_pre r w st ->
  soxr_process st None 0 false flush_frames = (st', (idone, odone, out, None)) ->
  destination r = Some wid ->
  io_write wid (w_log w) out = (n, e) ->
  Reset r d w =
    Done ((set_destination r d, option_map ErrWrite e),
          mk_world (mk_heap (hp_blocks (w_heap w)) (hp_next (w_heap w) + 1) (hp_limit (w_heap w)))
                   (<[resampler r := (soxr_clear st').1]> (w_soxr w)) (w_next_soxr w)
                   (w_log w ++ [(wid, accepted n out)]) (w_threads w)).
Proof.
  intros Hpre Hproc Hd Hw. pose proof Hpre as (Hnil & _).
  unfold Reset. rewrite decide_False by done.
  step (flush_spec r w st st' idone odone out wid n e Hpre Hproc Hd Hw).
  unfold soxr_clear_call. rewrite bind_assoc.
  estep ltac:(apply live_soxr_ok; simpl; apply lookup_insert_eq).
  destruct (soxr_clear st') as [st'' ce]. cbv beta iota. autorewrite with go.
  world_simpl. by rewrite insert_insert_eq.
Qed.

Theorem Close_closed r w :
  resampler r = nil_soxr -> Close r w = Done ((r, Some ErrResamplerNil), w).
Proof. intros H. unfold Close. by rewrite decide_True. Qed.

Theorem Reset_closed r d w :
  resampler r = nil_soxr -> Reset r d w = Done ((r, Some ErrResamplerNil), w).
Proof. intros H. unfold Reset. by rewrite decide_True. Qed.

(** Whatever [Close] returns, the resampler it returns is closed. *)
Lemma Close_result_nil r w r' e w' :
  Close r w = Done ((r', e), w') -> resampler r' = nil_soxr.
Proof.
  unfold Close. case_decide as Hn; [by intros [= <- _ _]|].
  intros H. apply bind_inv_done in H as (err & w1 & _ & H).
  apply bind_inv_done in H as (u & w2 & _ & H). by injection H as <- _ _.
Qed.

Lemma Reset_result r d w r' e w' :
  resampler r <> nil_soxr -> Reset r d w = Done ((r', e), w') -> r' = set_destination r d.
Proof.
  intros Hn. unfold Reset. rewrite decide_False by done.
  intros H. apply bind_inv_done in H as (err & w1 & _ & H).
  apply bind_inv_done in H as (u & w2 & _ & H). by injection H as <- _ _.
Qed.

(** C20: [Reset(nil)] is accepted, and the next [Write] that produces output dereferences the nil writer: a run-time panic rather than an error. *)
Theorem Reset_nil_writer_panics r w r' e w' p st st' idone odone out :
  Reset r None w = Done ((r', e), w') ->
  write_pre r' p w' st ->
  soxr_process st (Some p) (frames_in (inFrameSize r') (channels r') p) true
    (frames_out (inRate r') (outRate r') (frames_in (inFrameSize r') (channels r') p))
    = (st', (idone, odone, out, None)) ->
  Write r' p w' = Crash NilDereference.
Proof.
  intros HR Hpre Hproc. pose proof Hpre as (Hnil & _).
  destruct (decide (resampler r = nil_soxr)) as [Hn|Hn].
  - rewrite Reset_closed in HR by done. injection HR as <- _ _. done.
  - apply (Write_nil_destination r' p w' st st' idone odone out Hpre Hproc).
    by rewrite (Reset_result _ _ _ _ _ _ Hn HR).
Qed.
(** C16: The same wrap in [flush]: its buffer holds 65536 frames, so a stream of [r.channels * r.outFrameSize >= 32768] bytes per frame (4096 channels of f64, say) whose flush returns 2 GiB or more makes [C.int(int(done)*r.channels*r.outFrameSize)] negative, and [Close] or [Reset] panics in [C.GoBytes]. *)
Theorem flush_tail_cint_overflow r dataOut done w :
  0 < channels r -> 0 < outFrameSize r -> 0 <= done ->
  2 ^ 31 <= done * channels r * outFrameSize r < 2 ^ 32 ->
  flush_tail r dataOut done None w = Crash BadLength.
Proof.
  intros. unfold flush_tail. change (soxr_failed None) with false. cbv iota.
  rewrite bind_assoc. apply bind_crashed. by apply out_GoBytes_wraps.
Qed.
End FlushProps.

(** ** [New] *)
Section NewProps.
Context `{SX : Soxr} `{IW : IoWriter}.

(** C23: [New] with a rate [<= 0] returns "invalid input or output sampling rates" without creating a stream. *)
Theorem New_invalid_rates wid ir or ch fi fo q w :
  float_le_zero ir || float_le_zero or = true ->
  New (Some wid) ir or ch fi fo q w = Done ((None, Some ErrInvalidRates), w).
Proof. intros H. unfold New. by rewrite H. Qed.

(** C22: [New]'s checks accept every rate that is not [<= 0] (so NaN) and every channel count other than 0 (so negative ones): such arguments reach soxr_create. *)
Theorem New_validated wid ir or ch fi fo q w a b :
  float_le_zero ir = false -> float_le_zero or = false -> ch <> 0 -> 0 <= q <= 6 ->
  sizeOf fi = (a, None) -> sizeOf fo = (b, None) ->
  New (Some wid) ir or ch fi fo q w = New_tail (Some wid) ir or ch fi fo q a b w.
Proof.
  intros Hi Ho Hc Hq Ha Hb. unfold New. rewrite Hi, Ho. simpl.
  rewrite (proj2 (Z.eqb_neq ch 0) Hc), (proj2 (Z.ltb_ge q 0)), (proj2 (Z.ltb_ge 6 q)) by lia.
  by rewrite Ha, Hb.
Qed.

Lemma sizeOf_soxr f :
  sizeOf f = if (0 <=? f) && (f <=? 3) then (soxr_datatype_size f, None) else (0, Some ErrInvalidFormat).
Proof.
  unfold sizeOf, F64, F32, I32, I16.
  destruct (Z.eqb_spec f 1) as [->|]; [done|]. destruct (Z.eqb_spec f 0) as [->|]; [done|].
  destruct (Z.eqb_spec f 2) as [->|]; [done|]. destruct (Z.eqb_spec f 3) as [->|]; [done|].
  destruct (Z.leb_spec 0 f), (Z.leb_spec f 3); simpl; try done; lia.
Qed.

Definition new_specs (w : world) (fi fo q : Z) :=
  (soxr_io_spec (c_uint fi) (c_uint fo), soxr_quality_spec (c_ulong q) 0,
   soxr_runtime_spec (c_uint (w_threads w))).

(** C21: When [soxr_create] returns a stream and no error, [New] returns a Resampler holding the fresh handle, the rates, channels, frame sizes and writer, and registers the stream as live. *)
Theorem New_tail_ok wid ir or ch fi fo q a b w st :
  soxr_create ir or (c_uint ch) (new_specs w fi fo q).1.1 (new_specs w fi fo q).1.2
    (new_specs w fi fo q).2 = (Some st, None) ->
  New_tail (Some wid) ir or ch fi fo q a b w =
    Done ((Some (mk_resampler (w_next_soxr w) ir or ch a b (Some wid)), None),
          mk_world (w_heap w) (<[w_next_soxr w := st]> (w_soxr w)) (w_next_soxr w + 1)
                   (w_log w) (w_threads w)).
Proof.
  intros H. unfold New_tail. rewrite bind_get.
  unfold soxr_create_call, bind at 1. simpl in H. rewrite H. reflexivity.
Qed.

(** C5: When [soxr_create] reports an error, [New] calls [C.free] on soxr's static error string: the program crashes instead of returning the error. *)
Theorem New_tail_engine_error wid ir or ch fi fo q a b w s msg :
  soxr_create ir or (c_uint ch) (new_specs w fi fo q).1.1 (new_specs w fi fo q).1.2
    (new_specs w fi fo q).2 = (s, Some msg) ->
  New_tail (Some wid) ir or ch fi fo q a b w = Crash InvalidFree.
Proof.
  intros H. unfold New_tail. rewrite bind_get.
  unfold soxr_create_call, bind at 1. simpl in H. rewrite H.
  by destruct s, (soxr_failed (Some msg)).
Qed.
Lemma sizeOf_ok f a : sizeOf f = (a, None) -> frame_size_ok a = true.
Proof. unfold sizeOf. repeat case_match; intros [= <-]; reflexivity. Qed.

(** The struct [New_tail] returns carries its arguments. *)
Lemma New_tail_result wid ir or ch fi fo q a b w r e w' :
  New_tail wid ir or ch fi fo q a b w = Done ((Some r, e), w') ->
  e = None /\ r = mk_resampler (resampler r) ir or ch a b wid.
Proof.
  unfold New_tail, bind, get, soxr_create_call. cbv beta iota.
  destruct (soxr_create _ _ _ _ _ _) as [[st|] [msg|]]; cbn;
    repeat case_match; intros [=]; subst; auto.
Qed.

(** C19: Every struct [New] returns is well typed: it comes with no error, has a non-nil writer, a channel count other than 0, input and output frame sizes of 2, 4 or 8 bytes, and rates that passed the [<= 0] check. *)
Theorem New_typed wr ir or ch fi fo q w r e w' :
  New wr ir or ch fi fo q w = Done ((Some r, e), w') ->
  e = None /\ destination r = wr /\ wr <> None /\ channels r = ch /\ ch <> 0 /\
  frame_size_ok (inFrameSize r) = true /\ frame_size_ok (outFrameSize r) = true /\
  inRate r = ir /\ outRate r = or /\ float_le_zero ir = false /\ float_le_zero or = false.
Proof.
  unfold New. destruct wr as [wid|]; [|intros [=]].
  destruct (float_le_zero ir) eqn:Hi; [intros [=]|]. destruct (float_le_zero or) eqn:Ho; [intros [=]|].
  cbn [orb]. destruct (Z.eqb_spec ch 0); [intros [=]|]. destruct (_ || _); [intros [=]|].
  destruct (sizeOf fi) as [a [ea|]] eqn:Ha; [intros [=]|].
  destruct (sizeOf fo) as [b [eb|]] eqn:Hb; [intros [=]|].
  intros (-> & ->)%New_tail_result. cbn. apply sizeOf_ok in Ha, Hb. auto 20.
Qed.
End NewProps.
