(* ===== verification/FrameBudget.v ===== *)
(** * The frame budget of [Write]

    [Write] sizes its output buffer with
    [framesOut := int(float64(framesIn) * (r.outRate / r.inRate))]
    ([frames_out]), in binary64, where the spec asks for
    [floor(framesIn * outputRate / inputRate)].  The two agree on the
    rate pairs audio programs use, for every chunk of up to 8192 frames
    (one 32 KiB [io.Copy] chunk of 16-bit stereo): [frames_out_exact_pairs],
    proved by an executable check over every frame count.  They do not
    agree in general: the quotient [outRate / inRate] is rounded, and when
    it is rounded down an exact product loses its last frame; the
    example [frames_out_rounds_down] exhibits one such input. *)

From S2P Require Import Prelude GoNum CHeap Soxr IoWriter Resampler.

Open Scope Z_scope.

(** The spec's budget [floor(framesIn * outputRate / inputRate)], for
    integral rates. *)
Definition spec_frames_out (ir or n : Z) : Z := n * or / ir.

(** Input and output rates (Hz) of common conversions. *)
Definition rate_pairs : list (Z * Z) :=
  [(44100, 48000); (48000, 44100); (16000, 8000); (8000, 16000);
   (44100, 16000); (48000, 16000); (44100, 8000); (44100, 22050)].

(** [k] frame counts from [n] on: the code's budget, with the rates as
    [main] passes them ([float64(ir)] of the flag), is the spec's. *)
Fixpoint budget_exact_from (ir or : Z) (k : nat) (n : Z) : bool :=
  match k with
  | O => true
  | S k' =>
      (frames_out (float64_of_int ir) (float64_of_int or) n =? spec_frames_out ir or n) &&
      budget_exact_from ir or k' (n + 1)
  end.

Lemma budget_exact_from_spec ir or k n m :
  budget_exact_from ir or k n = true -> n <= m < n + Z.of_nat k ->
  frames_out (float64_of_int ir) (float64_of_int or) m = spec_frames_out ir or m.
Proof.
  revert n. induction k as [|k IH]; intros n; cbn [budget_exact_from]; [lia|].
  intros [Hn Hk]%andb_prop Hm. destruct (Z.eq_dec m n) as [->|]; [by apply Z.eqb_eq|].
  apply (IH (n + 1)); [done | lia].
Qed.

Lemma budget_exact_pairs :
  forallb (fun '(ir, or) => budget_exact_from ir or (Z.to_nat 8193) 0) rate_pairs = true.
Proof. vm_compute. reflexivity. Qed.

(** C18: On the common rate pairs of [rate_pairs] (44.1/48 kHz both ways, 16 kHz and 8 kHz from and to the usual rates), the frame budget [Write] computes in floating point, [int(float64(framesIn) * (outRate / inRate))], is exactly the spec's [floor(framesIn * outputRate / inputRate)] for every chunk of up to 8192 frames. *)
Theorem frames_out_exact_pairs ir or n :
  (ir, or) ∈ rate_pairs -> 0 <= n <= 8192 ->
  frames_out (float64_of_int ir) (float64_of_int or) n = spec_frames_out ir or n.
Proof.
  intros Hp Hn. pose proof budget_exact_pairs as Hall.
  rewrite forallb_forall in Hall. apply list_elem_of_In in Hp.
  specialize (Hall _ Hp). cbv beta iota in Hall.
  apply (budget_exact_from_spec ir or (Z.to_nat 8193) 0 n Hall). rewrite Z2Nat.id; lia.
Qed.

(** The converter [49 Hz -> 1 Hz] of a 2-channel 16-bit stream. *)
Definition r49 : Resampler :=
  mk_resampler 1 (float64_of_int 49) (float64_of_int 1) 2 2 2 (Some 7%N).

(** 49 frames of 2 x 16 bits. *)
Definition p49 : list byte := replicate 196 Byte.x00.

Section RoundsDown.
Context `{SX : Soxr} `{IW : IoWriter}.

(** The budget is not the spec's in general: [1 / 49] rounds down in binary64, so for 49 frames at 49 Hz -> 1 Hz the code computes [int(49 * (1/49)) = int(0.999...) = 0] where the spec's [floor(49 * 1 / 49)] is 1, and [Write] rejects the input with "not enough input to generate output" and writes nothing, on any engine, writer and world. *)
Example frames_out_rounds_down w :
  spec_frames_out 49 1 49 = 1 /\ frames_out (float64_of_int 49) (float64_of_int 1) 49 = 0 /\
  Write r49 p49 w = Done ((0, Some ErrNotEnoughInput), w).
Proof. split; [reflexivity|]. split; [vm_compute; reflexivity | reflexivity]. Qed.
End RoundsDown.

Lemma frames_out_exact_pairs_witness :
  frames_out (float64_of_int 44100) (float64_of_int 48000) 8192 = spec_frames_out 44100 48000 8192.
Proof. apply frames_out_exact_pairs; [apply list_elem_of_In; left; reflexivity | lia]. Defined.
