(* ===== verification/Lifecycle.v ===== *)
(** * The life cycle of a Resampler

    A Go program holds a [*Resampler] returned by [New] and calls its
    methods in sequence: [Write] any number of times, [Reset] to reuse it,
    [Close] at the end (the CLI of [src/unnamed/part_000] does [New],
    [io.Copy] into [Write], then [Close]).  This file proves what holds of
    every such sequence, whatever libsoxr and the writers do:

    - [Primitives]: a weakest-precondition rule for each effect of the
      methods (heap calls, soxr calls, the destination's [Write]); each
      says the call never uses a deleted stream when the stream is live,
      and how the world evolves ([evolves]);
    - [Methods]: the same for [Write], [flush], [Close], [Reset] and [New];
    - [Calls]: the step relation [reachable] over the calls a program
      makes, the invariant [world_wf] / [owns] proved by rule induction,
      the absence of use-after-delete and double delete on every
      reachable state, and the order of the bytes in the destinations
      across a [Reset] (spec 8.6). *)

From S2P Require Import Prelude GoNum CHeap Soxr IoWriter Resampler.

Open Scope Z_scope.

(** ** Heap calls *)

(** The panics a safe run may end in: all but a use of a deleted stream
    and the exhaustion of a loop's fuel. *)
Definition ok_panic (p : panic) : Prop :=
  match p with UseAfterDelete | OutOfFuel => False | _ => True end.


(** A heap computation that never reports a deleted stream and keeps the
    heap well formed. *)
Definition heap_op {A} (m : M heap A) : Prop :=
  (forall h p, m h = Crash p -> ok_panic p) /\
  (forall h a h', heap_wf h -> m h = Done (a, h') -> heap_wf h').

(** Inserting a block at a fresh or a live address keeps the heap well
    formed. *)
Lemma heap_wf_insert h p b n :
  heap_wf h -> (0 < p < n)%N -> (hp_next h <= n)%N ->
  heap_wf (mk_heap (<[p := b]> (hp_blocks h)) n (hp_limit h)).
Proof.
  intros [Hn Hwf] Hp Hle. split; simpl; [lia|]. intros q.
  rewrite lookup_insert. case_decide; [subst; lia|]. intros Hq. specialize (Hwf q Hq). lia.
Qed.

Ltac heap_op_tac :=
  split; [ intros ? ?; repeat (case_match || case_decide); try discriminate; intros [= <-]; exact I
         | intros ? ? ? Hwf; repeat (case_match || case_decide); intros [= <- <-];
           try done; try (apply heap_wf_insert; [done | destruct Hwf as [? Hb]; first [lia | apply Hb; eexists; eassumption] | simpl; lia]) ].

Lemma c_malloc_op n : heap_op (c_malloc n).
Proof. unfold c_malloc. heap_op_tac. Qed.

Lemma c_CBytes_op b : heap_op (c_CBytes b).
Proof. unfold c_CBytes. heap_op_tac. Qed.

Lemma c_free_op p : heap_op (c_free p).
Proof.
  split; [unfold c_free; intros h q; repeat (case_match || case_decide); try discriminate; intros [= <-]; exact I|].
  intros h [] h' Hwf E. by eapply c_free_wf.
Qed.

Lemma c_GoBytes_op p n : heap_op (c_GoBytes p n).
Proof. unfold c_GoBytes. heap_op_tac. Qed.

Lemma c_read_op p : heap_op (c_read p).
Proof. unfold c_read. heap_op_tac. Qed.

Lemma c_store_op p d : heap_op (c_store p d).
Proof. unfold c_store. heap_op_tac. Qed.

Create HintDb lifecycle.
#[export] Hint Resolve c_malloc_op c_CBytes_op c_free_op c_GoBytes_op c_read_op c_store_op : lifecycle.

Section Primitives.
Context `{SX : Soxr} `{IW : IoWriter}.

Definition same_streams (w w' : world) : Prop :=
  forall q, is_Some (w_soxr w' !! q) <-> is_Some (w_soxr w !! q).

(** [w'] is [w] after effects that keep the heap well formed and the set
    of live streams, and write only to the destination [d]. *)
Definition evolves (d : option writer_id) (w w' : world) : Prop :=
  heap_wf (w_heap w') /\ same_streams w w' /\ w_next_soxr w' = w_next_soxr w /\
  w_threads w' = w_threads w /\
  exists l, w_log w' = w_log w ++ l /\ Forall (fun e => Some e.1 = d) l.

Lemma evolves_refl d w : heap_wf (w_heap w) -> evolves d w w.
Proof. intros H. do 4 (split; [done|]). exists []. by rewrite app_nil_r. Qed.

Lemma evolves_trans d w1 w2 w3 : evolves d w1 w2 -> evolves d w2 w3 -> evolves d w1 w3.
Proof.
  intros (_ & S1 & N1 & T1 & l1 & L1 & F1) (H3 & S2 & N2 & T2 & l2 & L2 & F2).
  split; [done|]. split; [intros q; specialize (S1 q); specialize (S2 q); tauto|]. split; [congruence|]. split; [congruence|].
  exists (l1 ++ l2). rewrite L2, L1, app_assoc. split; [done|]. by apply Forall_app.
Qed.

Lemma evolves_live d w w' q : evolves d w w' -> is_Some (w_soxr w !! q) -> is_Some (w_soxr w' !! q).
Proof. intros (_ & S & _). apply S. Qed.

Lemma evolves_heap d w w' : evolves d w w' -> heap_wf (w_heap w').
Proof. by intros []. Qed.

#[local] Hint Resolve evolves_refl evolves_trans evolves_live evolves_heap : lifecycle.

(** A stream updated in place stays live, and the others too. *)
Lemma evolves_update d w p st :
  heap_wf (w_heap w) -> is_Some (w_soxr w !! p) -> evolves d w (with_soxr (<[p := st]> (w_soxr w)) w).
Proof.
  intros Hwf Hp. split; [done|]. split.
  - intros q. simpl. rewrite lookup_insert. case_decide; [subst; split; eauto|done].
  - do 2 (split; [done|]). exists []. by rewrite app_nil_r.
Qed.

(** Writes to [d] appended to the log. *)
Lemma evolves_log d w l :
  heap_wf (w_heap w) -> Forall (fun e => Some e.1 = d) l -> evolves d w (with_log (w_log w ++ l) w).
Proof. intros Hwf Hl. split; [done|]. split; [done|]. do 2 (split; [done|]). by exists l. Qed.

(** Each rule: from a world [w] that [w0] evolved into, the primitive
    either panics with something other than a use-after-delete or
    returns in a world that [w0] evolved into. *)
Lemma wp_on_heap {A} (m : M heap A) d w0 w (R : A -> world -> Prop) :
  heap_op m -> evolves d w0 w ->
  (forall a w', evolves d w0 w' -> R a w') -> wp ok_panic (on_heap m) R w.
Proof.
  intros [Hc Hd] Hev HR. unfold wp, on_heap.
  destruct (m (w_heap w)) as [[a h]|p] eqn:E; [|by eapply Hc].
  apply HR. eapply evolves_trans; [exact Hev|].
  split; [eapply Hd; [eapply evolves_heap|]; eauto|]. do 3 (split; [done|]).
  exists []. by rewrite app_nil_r.
Qed.

Lemma wp_live_soxr d w0 w p (R : soxr_state -> world -> Prop) :
  evolves d w0 w -> is_Some (w_soxr w0 !! p) ->
  (forall st, R st w) -> wp ok_panic (live_soxr p) R w.
Proof.
  intros Hev Hp HR. unfold wp, live_soxr.
  destruct (evolves_live _ _ _ _ Hev Hp) as [st ->]. apply HR.
Qed.

Lemma wp_soxr_process_call d w0 w p inp ilen b out olen R :
  evolves d w0 w -> is_Some (w_soxr w0 !! p) ->
  (forall res w', evolves d w0 w' -> R res w') ->
  wp ok_panic (soxr_process_call p inp ilen b out olen) R w.
Proof.
  intros Hev Hp HR. unfold soxr_process_call.
  apply wp_bind. eapply wp_live_soxr; [done..|]. intros st.
  apply wp_bind. apply wp_mono with (Q := fun _ w' => evolves d w0 w').
  { destruct inp as [q|]; [|by apply wp_ret].
    apply wp_bind. eapply wp_on_heap; [auto with lifecycle|done|]. intros a w' H. by apply wp_ret. }
  intros data w1 Hev1. destruct (soxr_process st data ilen b olen) as [st' [[[idone odone] bytes] e]].
  apply wp_bind. eapply wp_on_heap; [auto with lifecycle|done|]. intros [] w2 Hev2.
  apply wp_bind, wp_modify, wp_ret, HR. eapply evolves_trans; [exact Hev2|].
  apply evolves_update; eauto with lifecycle.
Qed.

Lemma wp_soxr_clear_call d w0 w p R :
  evolves d w0 w -> is_Some (w_soxr w0 !! p) ->
  (forall e w', evolves d w0 w' -> R e w') -> wp ok_panic (soxr_clear_call p) R w.
Proof.
  intros Hev Hp HR. unfold soxr_clear_call.
  apply wp_bind. eapply wp_live_soxr; [done..|]. intros st.
  destruct (soxr_clear st) as [st' e].
  apply wp_bind, wp_modify, wp_ret, HR. eapply evolves_trans; [exact Hev|].
  apply evolves_update; eauto with lifecycle.
Qed.

Lemma wp_dest_write d w0 w b R :
  evolves d w0 w -> (forall e w', evolves d w0 w' -> R e w') -> wp ok_panic (dest_write d b) R w.
Proof.
  intros Hev HR. destruct d as [wid|]; [|by apply wp_crash]. unfold wp, dest_write.
  destruct (io_write wid (w_log w) b) as [n e]. apply HR.
  eapply evolves_trans; [exact Hev|]. apply evolves_log; [eauto with lifecycle|by repeat constructor].
Qed.

Lemma wp_c_free_error w e (R : unit -> world -> Prop) : R tt w -> wp ok_panic (c_free_error e) R w.
Proof. intros H. destruct e; [by apply wp_crash|by apply wp_ret]. Qed.

Lemma wp_go_div a b w (R : Z -> world -> Prop) : (forall z, R z w) -> wp ok_panic (go_div a b) R w.
Proof. intros H. unfold go_div. case_match; [by apply wp_crash|by apply wp_ret]. Qed.
End Primitives.

#[export] Hint Resolve evolves_refl evolves_trans evolves_live evolves_heap : lifecycle.

(** One primitive step of a [wp] proof over a method's body, under the
    hypothesis [Hev : evolves d w0 w] for the current world. *)
Ltac wp_prim :=
  match goal with
  | |- wp _ (on_heap _) _ _ => eapply wp_on_heap; [auto with lifecycle | eassumption | intros ? ? ?]
  | |- wp _ (live_soxr _) _ _ => eapply wp_live_soxr; [eassumption | eassumption | intros ?]
  | |- wp _ (soxr_process_call _ _ _ _ _ _) _ _ =>
      eapply wp_soxr_process_call; [eassumption | eassumption | intros ? ? ?]
  | |- wp _ (soxr_clear_call _) _ _ => eapply wp_soxr_clear_call; [eassumption | eassumption | intros ? ? ?]
  | |- wp _ (dest_write _ _) _ _ => eapply wp_dest_write; [eassumption | intros ? ? ?]
  | |- wp _ (c_free_error _) _ _ => apply wp_c_free_error
  | |- wp _ (go_div _ _) _ _ => apply wp_go_div; intros ?
  end.

(** [wp_seq] over a method body, with the rules above and [extra] for the
    sub-computations that have their own lemma. *)
Ltac wp_method extra := wp_seq ltac:(first [wp_prim | extra]).

Section Methods.
Context `{SX : Soxr} `{IW : IoWriter}.

(** The struct's [soxr_t] is nil or a live stream. *)
Definition owns (r : Resampler) (w : world) : Prop :=
  resampler r = nil_soxr \/ is_Some (w_soxr w !! resampler r).

Lemma Write_tail_wp r p dataIn dataOut done e w0 w R :
  evolves (destination r) w0 w ->
  (forall res w', evolves (destination r) w0 w' -> R res w') ->
  wp ok_panic (Write_tail r p dataIn dataOut done e) R w.
Proof. intros Hev HR. unfold Write_tail. wp_method fail; eauto. Qed.

Lemma flush_tail_wp r dataOut done e w0 w R :
  evolves (destination r) w0 w ->
  (forall res w', evolves (destination r) w0 w' -> R res w') ->
  wp ok_panic (flush_tail r dataOut done e) R w.
Proof. intros Hev HR. unfold flush_tail. wp_method fail; eauto. Qed.

(** [Write] on a struct that owns its stream: no use-after-delete, and
    the world evolves writing only to the destination; on a closed
    struct nothing changes. *)
Lemma Write_wp r p w R :
  heap_wf (w_heap w) -> owns r w ->
  (forall res w', evolves (destination r) w w' -> (resampler r = nil_soxr -> w' = w) -> R res w') ->
  wp ok_panic (Write r p) R w.
Proof.
  intros Hwf Hown HR. pose proof (evolves_refl (destination r) w Hwf) as Hev.
  unfold Write. case_decide as Hn; [apply wp_ret; auto|].
  destruct Hown as [|Hl]; [done|].
  wp_method ltac:(eapply Write_tail_wp; [eassumption | intros ? ? ?]);
    apply HR; first [eassumption | intros; congruence | done].
Qed.

(** [flush] of a struct whose stream is live. *)
Lemma flush_wp r w0 w R :
  evolves (destination r) w0 w -> is_Some (w_soxr w0 !! resampler r) ->
  (forall res w', evolves (destination r) w0 w' -> R res w') -> wp ok_panic (flush r) R w.
Proof.
  intros Hev Hl HR. unfold flush. cbv zeta.
  wp_method ltac:(eapply flush_tail_wp; [eassumption | intros ? ? ?]); eauto.
Qed.

(** What [Close] leaves: on a closed struct nothing; otherwise the stream
    deleted after a flush that wrote only to the destination. *)
Definition Close_post (r : Resampler) (w : world) (res : Resampler * option go_error) (w' : world) : Prop :=
  (resampler r = nil_soxr /\ res.1 = r /\ w' = w) \/
  (resampler r <> nil_soxr /\ res.1 = set_resampler r nil_soxr /\
   exists w1, evolves (destination r) w w1 /\ w' = with_soxr (delete (resampler r) (w_soxr w1)) w1).

Lemma Close_wp r w : heap_wf (w_heap w) -> owns r w -> wp ok_panic (Close r) (Close_post r w) w.
Proof.
  intros Hwf Hown. pose proof (evolves_refl (destination r) w Hwf) as Hev.
  unfold Close. case_decide as Hn; [apply wp_ret; by left|].
  destruct Hown as [|Hl]; [done|].
  apply wp_bind. eapply flush_wp; [done..|]. intros e w1 Hev1.
  unfold soxr_delete_call. wp_method fail.
  right. split; [done|]. split; [done|]. by exists w1.
Qed.
(** What [Reset] leaves: on a closed struct nothing; otherwise the new
    writer installed after a flush that wrote only to the old one. *)
Definition Reset_post (r : Resampler) (d : option writer_id) (w : world)
    (res : Resampler * option go_error) (w' : world) : Prop :=
  (resampler r = nil_soxr /\ res.1 = r /\ w' = w) \/
  (resampler r <> nil_soxr /\ res.1 = set_destination r d /\ evolves (destination r) w w').

Lemma Reset_wp r d w : heap_wf (w_heap w) -> owns r w -> wp ok_panic (Reset r d) (Reset_post r d w) w.
Proof.
  intros Hwf Hown. pose proof (evolves_refl (destination r) w Hwf) as Hev.
  unfold Reset. case_decide as Hn; [apply wp_ret; by left|].
  destruct Hown as [|Hl]; [done|].
  apply wp_bind. eapply flush_wp; [done..|]. intros e w1 Hev1. cbv zeta.
  wp_method fail. right. eauto.
Qed.

(** Live streams lie between NULL and the next fresh handle. *)
Definition streams_wf (w : world) : Prop :=
  (0 < w_next_soxr w)%N /\ forall q, is_Some (w_soxr w !! q) -> (0 < q < w_next_soxr w)%N.

Definition world_wf (w : world) : Prop := heap_wf (w_heap w) /\ streams_wf w.

Lemma evolves_world_wf d w w' : world_wf w -> evolves d w w' -> world_wf w'.
Proof.
  intros [_ [Hn Hs]] (Hh & Hss & Hnx & _). split; [done|]. unfold streams_wf. rewrite Hnx. split; [done|].
  intros q Hq. apply Hs, Hss, Hq.
Qed.

Lemma wp_soxr_create_call ir or ch io q rt w R :
  world_wf w ->
  (forall p e w', world_wf w' -> (p = nil_soxr \/ is_Some (w_soxr w' !! p)) -> R (p, e) w') ->
  wp ok_panic (soxr_create_call ir or ch io q rt) R w.
Proof.
  intros [Hh [Hn Hs]] HR. unfold wp, soxr_create_call.
  destruct (soxr_create ir or ch io q rt) as [[st|] e]; [|apply HR; [done|by left]].
  apply HR; [|right; simpl; rewrite lookup_insert_eq; by eexists].
  split; [done|]. split; simpl; [lia|]. intros q'. rewrite lookup_insert.
  case_decide; [subst; lia|]. intros Hq. specialize (Hs q' Hq). lia.
Qed.

(** [New] keeps the world well formed and returns a struct that owns its
    stream. *)
Lemma New_wp wr ir or ch fi fo q w R :
  world_wf w ->
  (forall res w', world_wf w' -> (forall r, res.1 = Some r -> owns r w') -> R res w') ->
  wp ok_panic (New wr ir or ch fi fo q) R w.
Proof.
  intros Hwf HR. unfold New, New_tail.
  wp_method ltac:(eapply wp_soxr_create_call; [eassumption | intros ? ? ? ? ?]).
  all: apply HR; [assumption | intros ? Heq; try discriminate; injection Heq as <-; assumption].
Qed.
Lemma evolves_owns d r w w' : evolves d w w' -> owns r w -> owns r w'.
Proof. intros Hev [|Hl]; [by left | right; by eapply evolves_live]. Qed.

(** A fresh stream added and later deleted leaves the live streams as
    they were. *)
Lemma streams_restored (m m1 : gmap N soxr_state) q st :
  m !! q = None -> (forall x, is_Some (m1 !! x) <-> is_Some (<[q := st]> m !! x)) ->
  forall x, is_Some (delete q m1 !! x) <-> is_Some (m !! x).
Proof.
  intros Hq H x. rewrite lookup_delete. case_decide as Hx.
  - subst. rewrite Hq. done.
  - rewrite H, lookup_insert_ne by done. done.
Qed.

(** What a returning [New] does to the stream table: nothing, or it
    adds the fresh handle its struct holds. *)
Lemma New_done wr ir or ch fi fo q w res e w' :
  New wr ir or ch fi fo q w = Done ((res, e), w') ->
  match res with
  | None => w' = w
  | Some r => e = None /\ ((resampler r = nil_soxr /\ w' = w) \/
              (resampler r = w_next_soxr w /\ exists st, w_soxr w' = <[resampler r := st]> (w_soxr w)))
  end.
Proof.
  intros H. unfold New, New_tail, bind, get, ret, soxr_create_call, c_free_error in H.
  repeat (case_match; unfold ret in *; simplify_eq/=); eauto.
Qed.

End Methods.

(** ** Sequences of calls *)
Section Calls.
Context `{SX : Soxr} `{IW : IoWriter}.

(** A method call a program makes on its [*Resampler]. *)
Inductive call : Type :=
| CWrite (p : list byte)
| CReset (writer : option writer_id)
| CClose.

Definition is_reset (c : call) : bool := match c with CReset _ => true | _ => false end.

(** The call and the struct it leaves behind the pointer. *)
Definition run_call (r : Resampler) (c : call) : M world (Resampler * option go_error) :=
  match c with
  | CWrite p => let* '(_, err) := Write r p in ret (r, err)
  | CReset writer => Reset r writer
  | CClose => Close r
  end.

Fixpoint run_calls (r : Resampler) (cs : list call) : M world (Resampler * list (option go_error)) :=
  match cs with
  | [] => ret (r, [])
  | c :: cs' =>
      let* '(r1, e) := run_call r c in
      let* '(r2, es) := run_calls r1 cs' in
      ret (r2, e :: es)
  end.

(** The states a program reaches: a [*Resampler] from [New] on a well
    formed world, then any method calls. *)
Inductive reachable : Resampler -> world -> Prop :=
| reach_new wr ir or ch fi fo q w r e w' :
    world_wf w -> New wr ir or ch fi fo q w = Done ((Some r, e), w') -> reachable r w'
| reach_call r w c r' e w' :
    reachable r w -> run_call r c w = Done ((r', e), w') -> reachable r' w'.

(** Where the struct writes after the call. *)
Definition next_destination (r : Resampler) (c : call) : option writer_id :=
  match c with
  | CReset d => if decide (resampler r = nil_soxr) then destination r else d
  | _ => destination r
  end.

Definition log_to (d : option writer_id) (w w' : world) : Prop :=
  exists l, w_log w' = w_log w ++ l /\ Forall (fun e => Some e.1 = d) l.

Lemma log_to_refl d w : log_to d w w.
Proof. exists []. by rewrite app_nil_r. Qed.

Lemma log_to_trans d w1 w2 w3 : log_to d w1 w2 -> log_to d w2 w3 -> log_to d w1 w3.
Proof.
  intros (l1 & L1 & F1) (l2 & L2 & F2). exists (l1 ++ l2).
  rewrite L2, L1, app_assoc. split; [done|]. by apply Forall_app.
Qed.

Lemma evolves_log_to d w w' : evolves d w w' -> log_to d w w'.
Proof. by intros (_ & _ & _ & _ & H). Qed.

Lemma streams_wf_delete w p : streams_wf w -> streams_wf (with_soxr (delete p (w_soxr w)) w).
Proof.
  intros [Hn Hs]. split; [done|]. intros q. simpl. rewrite lookup_delete.
  case_decide; [by intros []|]. apply Hs.
Qed.

(** What every call guarantees on a well formed world. *)
Definition call_post (r : Resampler) (c : call) (w : world)
    (res : Resampler * option go_error) (w' : world) : Prop :=
  world_wf w' /\ owns res.1 w' /\ log_to (destination r) w w' /\
  destination res.1 = next_destination r c /\
  (resampler r = nil_soxr -> res.1 = r /\ w' = w) /\
  (resampler res.1 = nil_soxr \/ resampler res.1 = resampler r).

Lemma run_call_wp r c w : world_wf w -> owns r w -> wp ok_panic (run_call r c) (call_post r c w) w.
Proof.
  intros Hwf Hown. pose proof Hwf as [Hh _]. destruct c as [p|d|]; simpl.
  - apply wp_bind, Write_wp; [done..|]. intros [n e] w' Hev Hnil. apply wp_ret.
    split; [eauto using evolves_world_wf|]. split; [destruct Hown; [by left|right; eauto with lifecycle]|].
    split; [by apply evolves_log_to|]. split; [done|]. split; [auto|by right].
  - eapply wp_mono; [by apply Reset_wp|]. intros [r' e] w' H; unfold Reset_post, Close_post in H; simpl in H.
    destruct H as [(Hn & -> & ->)|(Hn & -> & Hev)].
    + do 3 (split; [done || apply log_to_refl|]). split; [simpl; by rewrite decide_True|]. auto.
    + split; [eauto using evolves_world_wf|].
      split; [destruct Hown; [done|right; simpl; eauto with lifecycle]|].
      split; [by apply evolves_log_to|]. split; [simpl; by rewrite decide_False|].
      split; [done|by right].
  - eapply wp_mono; [by apply Close_wp|]. intros [r' e] w' H; unfold Reset_post, Close_post in H; simpl in H.
    destruct H as [(Hn & -> & ->)|(Hn & -> & w1 & Hev & ->)].
    + do 3 (split; [done || apply log_to_refl|]). split; [done|]. auto.
    + split; [split; [exact (evolves_heap _ _ _ Hev)|apply streams_wf_delete; eapply evolves_world_wf; eauto]|].
      split; [by left|]. split; [exact (evolves_log_to _ _ _ Hev)|]. split; [done|]. split; [done|by left].
Qed.
Lemma world_wf_fresh h n l t : heap_wf h -> (0 < n)%N -> world_wf (mk_world h ∅ n l t).
Proof. intros Hh Hn. split; [done|]. split; [done|]. intros q [x Hx]. simpl in Hx. by rewrite lookup_empty in Hx. Qed.

Lemma run_call_closed r c w :
  resampler r = nil_soxr -> run_call r c w = Done ((r, Some ErrResamplerNil), w).
Proof. intros H. destruct c; unfold run_call, Write, Reset, Close; by rewrite decide_True. Qed.

Lemma run_calls_cons_inv r c cs w r' es w' :
  run_calls r (c :: cs) w = Done ((r', es), w') ->
  exists r1 e w1 es', run_call r c w = Done ((r1, e), w1) /\ run_calls r1 cs w1 = Done ((r', es'), w').
Proof.
  simpl. intros H. apply bind_inv_done in H as ([r1 e] & w1 & H1 & H).
  apply bind_inv_done in H as ([r2 es'] & w2 & H2 & H). injection H as -> _ ->. eauto 10.
Qed.

Lemma run_calls_app_inv r cs1 cs2 w r' es w' :
  run_calls r (cs1 ++ cs2) w = Done ((r', es), w') ->
  exists r1 es1 w1 es2, run_calls r cs1 w = Done ((r1, es1), w1) /\ run_calls r1 cs2 w1 = Done ((r', es2), w').
Proof.
  revert r w es. induction cs1 as [|c cs1 IH]; intros r w es H; [by exists r, [], w, es|].
  apply run_calls_cons_inv in H as (r1 & e & w1 & es' & H1 & H).
  destruct (IH _ _ _ H) as (r2 & es1 & w2 & es2 & H2 & H3).
  exists r2, (e :: es1), w2, es2. split; [|done]. cbn [run_calls].
  rewrite (bind_done _ _ _ _ _ H1). cbv beta iota. by rewrite (bind_done _ _ _ _ _ H2).
Qed.

Lemma run_calls_snoc r cs c w r1 es1 w1 r2 e w2 :
  run_calls r cs w = Done ((r1, es1), w1) -> run_call r1 c w1 = Done ((r2, e), w2) ->
  run_calls r (cs ++ [c]) w = Done ((r2, es1 ++ [e]), w2).
Proof.
  revert r w es1. induction cs as [|c' cs IH]; intros r w es1 H Hc.
  - unfold ret in H. injection H as <- <- <-. simpl. rewrite (bind_done _ _ _ _ _ Hc). reflexivity.
  - cbn [run_calls] in H. apply bind_inv_done in H as ([r0 e0] & w0 & H0 & H).
    apply bind_inv_done in H as ([r3 es0] & w3 & H3 & H). unfold ret in H. injection H as <- <- <-.
    cbn [run_calls app]. rewrite (bind_done _ _ _ _ _ H0). cbv beta iota.
    by rewrite (bind_done _ _ _ _ _ (IH _ _ _ H3 Hc)).
Qed.

(** The invariant of every reachable state: the world is well formed and
    the struct owns its stream. *)
Lemma reachable_inv r w : reachable r w -> world_wf w /\ owns r w.
Proof.
  induction 1 as [wr ir or ch fi fo q w r e w' Hwf HN | r w c r' e w' _ [Hwf Hown] Hc].
  - assert (Hp : wp ok_panic (New wr ir or ch fi fo q)
                    (fun res w' => world_wf w' /\ forall r, res.1 = Some r -> owns r w') w)
      by (apply New_wp; auto).
    destruct (wp_done _ _ _ _ _ _ Hp HN) as [H1 H2]. split; [done|]. by apply H2.
  - by destruct (wp_done _ _ _ _ _ _ (run_call_wp r c w Hwf Hown) Hc) as (H1 & H2 & _).
Qed.

Lemma run_calls_reachable r cs w r' es w' :
  reachable r w -> run_calls r cs w = Done ((r', es), w') -> reachable r' w'.
Proof.
  revert r w es. induction cs as [|c cs IH]; intros r w es Hr H; [by injection H as -> _ ->|].
  apply run_calls_cons_inv in H as (r1 & e & w1 & es' & H1 & H). eapply IH; [|exact H].
  by eapply reach_call.
Qed.

Lemma run_call_post r c w r' e w' :
  reachable r w -> run_call r c w = Done ((r', e), w') -> call_post r c w (r', e) w'.
Proof. intros Hr H. destruct (reachable_inv r w Hr). by eapply wp_done; [apply run_call_wp|]. Qed.

(** Calls other than [Reset] write only to the struct's destination and
    keep it; on a closed struct they change nothing. *)
Lemma run_calls_no_reset r cs w r' es w' :
  reachable r w -> Forall (fun c => is_reset c = false) cs -> run_calls r cs w = Done ((r', es), w') ->
  log_to (destination r) w w' /\ destination r' = destination r /\
  (resampler r = nil_soxr -> r' = r /\ w' = w).
Proof.
  intros Hr Hcs. revert r w es Hr. induction Hcs as [|c cs Hc Hcs IH]; intros r w es Hr H.
  - injection H as -> _ ->. split; [apply log_to_refl|done].
  - apply run_calls_cons_inv in H as (r1 & e & w1 & es' & H1 & H).
    destruct (run_call_post _ _ _ _ _ _ Hr H1) as (_ & _ & Hl1 & Hd1 & Hn1 & _). cbn [fst] in *.
    destruct (IH _ _ _ (reach_call _ _ _ _ _ _ Hr H1) H) as (Hl2 & Hd2 & Hn2).
    assert (Hd : destination r1 = destination r) by (rewrite Hd1; by destruct c).
    split; [eapply log_to_trans; [exact Hl1|by rewrite <- Hd]|]. split; [congruence|].
    intros Hn. destruct (Hn1 Hn) as [-> ->]. auto.
Qed.

(** C6: Every state a program reaches from [New] on a well formed world, by any sequence of [Write], [Reset] and [Close] calls, has a well formed heap and stream table, a struct whose [soxr_t] is nil or a live stream, and no next call on it uses a deleted stream. *)
Theorem reachable_safe r w :
  reachable r w -> world_wf w /\ owns r w /\ forall c, run_call r c w <> Crash UseAfterDelete.
Proof.
  intros Hr. destruct (reachable_inv r w Hr) as [Hwf Hown]. do 2 (split; [done|]).
  intros c E. exact (wp_crashed _ _ _ _ _ (run_call_wp r c w Hwf Hown) E).
Qed.

(** C8: [Close] on a reachable open struct deletes exactly its own stream: the returned struct is nil, the handle is no longer live, and every other stream is live afterwards exactly when it was before. *)
Theorem Close_releases_stream r w r' e w' :
  reachable r w -> resampler r <> nil_soxr -> run_call r CClose w = Done ((r', e), w') ->
  resampler r' = nil_soxr /\ w_soxr w' !! resampler r = None /\
  forall q, q <> resampler r -> is_Some (w_soxr w' !! q) <-> is_Some (w_soxr w !! q).
Proof.
  intros Hr Hn H. destruct (reachable_inv r w Hr) as [[Hh _] Hown].
  pose proof (wp_done _ _ _ _ _ _ (Close_wp r w Hh Hown) H) as Hp.
  unfold Close_post in Hp. simpl in Hp.
  destruct Hp as [(Hn' & _)|(_ & -> & w1 & (_ & Hs & _) & ->)]; [done|].
  simpl. rewrite lookup_delete_eq. split; [done|]. split; [done|].
  intros q Hq. rewrite lookup_delete_ne by done. apply Hs.
Qed.

(** C9: A closed struct is terminal: any sequence of calls on it fails each call with "soxr resampler is nil" and leaves the struct and the world unchanged. *)
Theorem closed_is_terminal r cs w :
  resampler r = nil_soxr ->
  run_calls r cs w = Done ((r, map (fun _ => Some ErrResamplerNil) cs), w).
Proof.
  intros Hn. induction cs as [|c cs IH]; [done|]. simpl.
  rewrite (bind_done _ _ _ _ _ (run_call_closed r c w Hn)). cbv beta iota.
  by rewrite (bind_done _ _ _ _ _ IH).
Qed.

(** C7: Across a [Reset(d)] between calls that are not resets (spec 8.6), the log splits at the moment [Reset] returns: everything written up to that point, [Reset]'s own flush included, went to the old destination, and everything written by the later calls goes to [d]. *)
Theorem Reset_orders_output r w cs1 d cs2 r' es w' :
  reachable r w ->
  Forall (fun c => is_reset c = false) cs1 -> Forall (fun c => is_reset c = false) cs2 ->
  run_calls r (cs1 ++ CReset d :: cs2) w = Done ((r', es), w') ->
  exists r1 es1 w1, run_calls r (cs1 ++ [CReset d]) w = Done ((r1, es1), w1) /\
    log_to (destination r) w w1 /\ log_to d w1 w'.
Proof.
  intros Hr H1 H2 H.
  apply run_calls_app_inv in H as (r1 & es1 & w1 & es2 & Hrun1 & H).
  apply run_calls_cons_inv in H as (r2 & e & w2 & es' & Hc & Hrun2).
  exists r2, (es1 ++ [e]), w2. split; [by apply (run_calls_snoc _ _ _ _ _ _ _ _ _ _ Hrun1 Hc)|].
  destruct (run_calls_no_reset _ _ _ _ _ _ Hr H1 Hrun1) as (Hl1 & Hd1 & _).
  pose proof (run_calls_reachable _ _ _ _ _ _ Hr Hrun1) as Hr1.
  destruct (run_call_post _ _ _ _ _ _ Hr1 Hc) as (_ & _ & Hl2 & Hd2 & Hn2 & _). cbn [fst] in *.
  destruct (run_calls_no_reset _ _ _ _ _ _ (reach_call _ _ _ _ _ _ Hr1 Hc) H2 Hrun2) as (Hl3 & _ & Hn3).
  simpl in Hd2. rewrite Hd1 in Hl2. split; [by eapply log_to_trans|].
  case_decide as Hn.
  - destruct (Hn2 Hn) as [-> ->]. destruct (Hn3 Hn) as [_ ->]. apply log_to_refl.
  - by rewrite Hd2 in Hl3.
Qed.
End Calls.
