(* ===== verification/Cli.v ===== *)
(** * The command-line program goresample ([src/unnamed/part_000])

    [main] validates its flags ([strToFormat] for the two formats, the
    channel count, the rates, two file arguments), opens the input,
    creates the output, builds a [Resampler] writing to the output with
    [resample.New], skips the 44-byte header of a [.wav] input, copies the
    input into the resampler with [io.Copy], closes the resampler and the
    output, and deletes the output when the copy failed.  [log.Fatal]
    ends the program with status 1 ([ExitFatal msg]).

    The program runs in a [cli_state]: the package's [world], the files
    on disk, the next file descriptor.  A descriptor is a [writer_id]:
    what [*os.File.Write] does is the [IoWriter] instance, and a file's
    content when it is closed is what its descriptor [received].
    Library functions are modelled by their documented behaviour:
    [strings.ToLower], [filepath.Ext], [os.Open], [os.Create],
    [os.Remove], [*os.File.Read] and [Seek], and [io.Copy]'s loop
    ([io.copyBuffer] with its 32 KiB buffer).  [flag.Parse] is not
    modelled: [main] takes the parsed [flags]. *)

From Stdlib Require Import Ascii String.
From Equations Require Import Equations.
From S2P Require Import Prelude GoNum CHeap Soxr IoWriter Resampler Lifecycle.

Open Scope Z_scope.

Definition wavHeader : Z := 44.

(** ** Strings *)

Definition ascii_lower (a : ascii) : ascii :=
  let n := Ascii.nat_of_ascii a in
  if (65 <=? n)%nat && (n <=? 90)%nat then Ascii.ascii_of_nat (n + 32) else a.

(** [strings.ToLower] on the bytes of a UTF-8 string: ASCII letters are
    lowered, and so are the two runes whose lowercase is ASCII, U+0130
    (bytes 196 176) to ["i"] and the Kelvin sign U+212A (226 132 170) to
    ["k"].  Other non-ASCII bytes are kept: Go maps them to other
    non-ASCII runes, so every comparison of the result with an ASCII
    string, the only use [main] makes of it, comes out as in Go. *)
Fixpoint to_lower (s : string) : string :=
  match s with
  | EmptyString => EmptyString
  | String a s1 =>
      if Ascii.eqb a "196"%char then
        match s1 with
        | String b s2 => if Ascii.eqb b "176"%char then String "i" (to_lower s2) else String a (to_lower s1)
        | EmptyString => String a EmptyString
        end
      else if Ascii.eqb a "226"%char then
        match s1 with
        | String b (String c s3) =>
            if Ascii.eqb b "132"%char && Ascii.eqb c "170"%char then String "k" (to_lower s3)
            else String a (to_lower s1)
        | _ => String a (to_lower s1)
        end
      else String (ascii_lower a) (to_lower s1)
  end.

(** [filepath.Ext]: the suffix from the last ["."] of the last path
    element, [""] when there is none.  [ext_rev] scans the reversed path
    with the suffix seen so far. *)
Fixpoint ext_rev (rs : list ascii) (suffix : string) : string :=
  match rs with
  | [] => ""
  | c :: rs' =>
      if Ascii.eqb c "/" then ""
      else if Ascii.eqb c "." then String c suffix
      else ext_rev rs' (String c suffix)
  end.

Definition filepath_Ext (path : string) : string := ext_rev (rev (list_ascii_of_string path)) "".

Definition strToFormat (format : string) : Z * option string :=
  let f := to_lower format in
  if String.eqb f "i16" then (I16, None)
  else if String.eqb f "i32" then (I32, None)
  else if String.eqb f "f32" then (F32, None)
  else if String.eqb f "f64" then (F64, None)
  else (0, Some ("unknown format " ++ format)%string).

(** ** The program's state *)

Section Cli.
Context `{SX : Soxr} `{IW : IoWriter}.

Record cli_state := mk_cli {
  cs_world : world;                    (** the package's world *)
  cs_files : gmap string (list byte);  (** the files on disk *)
  cs_next_fd : writer_id;              (** the descriptor the next [os.Create] returns *)
  cs_writable : string -> bool         (** where [os.Create] may create a file *)
}.

Definition with_world (w : world) (s : cli_state) : cli_state :=
  mk_cli w (cs_files s) (cs_next_fd s) (cs_writable s).
Definition with_files (fs : gmap string (list byte)) (s : cli_state) : cli_state :=
  mk_cli (cs_world s) fs (cs_next_fd s) (cs_writable s).

(** A call of the package. *)
Definition in_world {A} (m : M world A) : M cli_state A :=
  fun s => match m (cs_world s) with
           | Done (a, w) => Done (a, with_world w s)
           | Crash p => Crash p
           end.

(** [os.Open(name)]: the file's content, or the error text. *)
Definition os_Open (name : string) : M cli_state (list byte + string) :=
  fun s => match cs_files s !! name with
           | Some d => Done (inl d, s)
           | None => Done (inr ("open " ++ name ++ ": no such file or directory")%string, s)
           end.

(** [os.Create(name)]: an empty file and its descriptor. *)
Definition os_Create (name : string) : M cli_state (writer_id + string) :=
  fun s => if cs_writable s name then
             Done (inl (cs_next_fd s),
                   mk_cli (cs_world s) (<[name := []]> (cs_files s)) (cs_next_fd s + 1)%N (cs_writable s))
           else Done (inr ("open " ++ name ++ ": permission denied")%string, s).

(** [output.Close()]: the file holds what its descriptor received. *)
Definition file_Close (fd : writer_id) (name : string) : M cli_state unit :=
  modify (fun s => with_files (<[name := received fd (w_log (cs_world s))]> (cs_files s)) s).

(** [os.Remove(name)]. *)
Definition os_Remove (name : string) : M cli_state unit :=
  modify (fun s => with_files (delete name (cs_files s)) s).

(** ** [io.Copy(res, input)] *)

(** The buffer of [io.copyBuffer]. *)
Definition copy_buf : Z := 32 * 1024.

(** [input.Read(buf)] at offset [off] of a file holding [data]: up to
    [len(buf)] bytes, and [io.EOF] with no byte at the end. *)
Definition file_read (data : list byte) (off n : Z) : list byte * bool :=
  if len data <=? off then ([], true)
  else (take (Z.to_nat n) (drop (Z.to_nat off) data), false).

Inductive copy_error : Type :=
| CopyWrite (e : go_error)     (** the error of [res.Write] *)
| ErrShortWrite                (** io.ErrShortWrite *)
| ErrInvalidWrite.             (** io.errInvalidWrite *)

Definition copy_error_text (e : copy_error) : string :=
  match e with
  | CopyWrite e => error_text e
  | ErrShortWrite => "short write"
  | ErrInvalidWrite => "invalid write result"
  end%string.

(** The loop of [io.copyBuffer] reading from offset [off], with [written]
    bytes copied so far; [fuel] bounds the iterations. *)
Fixpoint io_copy (fuel : nat) (r : Resampler) (data : list byte) (off written : Z)
    : M world (Z * option copy_error) :=
  match fuel with
  | O => crash OutOfFuel
  | S fuel' =>
      let '(buf, eof) := file_read data off copy_buf in
      let nr := len buf in
      if 0 <? nr then
        let* '(nw, ew) := Write r buf in
        let bad := (nw <? 0) || (nr <? nw) in
        let nw := if bad then 0 else nw in
        let ew := match ew with
                  | Some e => Some (CopyWrite e)
                  | None => if bad then Some ErrInvalidWrite else None
                  end in
        match ew with
        | Some e => ret (written + nw, Some e)
        | None =>
            if negb (nr =? nw) then ret (written + nw, Some ErrShortWrite)
            else if eof then ret (written + nw, None)
            else io_copy fuel' r data (off + nr) (written + nw)
        end
      else if eof then ret (written, None)
      else io_copy fuel' r data (off + nr) written
  end.

(** The iterations of the copy of a file of [len data] bytes read from
    [off]: one per chunk of at most 32 KiB, and the read that returns
    [io.EOF]. *)
Definition copy_fuel (data : list byte) (off : Z) : nat :=
  (Z.to_nat ((len data - off + copy_buf - 1) / copy_buf) + 1)%nat.

(** The chunks [io.Copy] hands to [Write]: consecutive slices of
    [S k] bytes, the last one shorter; [io.Copy] reads [S copy_k =
    32768] bytes at a time. *)
Equations chunks (k : nat) (l : list byte) : list (list byte) by wf (length l) lt :=
  chunks k [] := [];
  chunks k (b :: l') := take (S k) (b :: l') :: chunks k (drop (S k) (b :: l')).
Next Obligation. intros. simpl. rewrite length_drop. simpl. lia. Qed.

Definition copy_k : nat := Z.to_nat copy_buf - 1.

(** The copy as the loop over the chunks it reads: each one written in
    turn until a [Write] fails. *)
Fixpoint write_chunks (r : Resampler) (cs : list (list byte)) (written : Z)
    : M world (Z * option copy_error) :=
  match cs with
  | [] => ret (written, None)
  | c :: cs' =>
      let* '(nw, ew) := Write r c in
      match ew with
      | Some e => ret (written, Some (CopyWrite e))
      | None => write_chunks r cs' (written + nw)
      end
  end.

(** ** [main] *)

(** The parsed flags and arguments. *)
Record flags := mk_flags {
  inFormat : string;    (** -if, default "i16" *)
  outFormat : string;   (** -iof, default "i16" *)
  ch : Z;               (** -ch, default 2 *)
  ir : Z;               (** -ir, default 44100 *)
  or : Z;               (** -or, default 0 *)
  args : list string    (** flag.Args() *)
}.

Definition default_flags (a : list string) : flags := mk_flags "i16" "i16" 2 44100 0 a.

Inductive exit_status : Type :=
| ExitOk
| ExitFatal (msg : string).   (** log.Fatal: the message, exit status 1 *)

(** Whether [main] skips a WAV header. *)
Definition wav_input (inputFile : string) : bool := String.eqb (to_lower (filepath_Ext inputFile)) ".wav".

(** [main] after [resample.New] returned [res]: the copy, the two
    [Close] calls, and the removal of the output on a copy error. *)
Definition main_run (res : Resampler) (fd : writer_id) (outputFile : string) (data : list byte) (off : Z)
    : M cli_state exit_status :=
  let* '(_, err) := in_world (io_copy (copy_fuel data off) res data off 0) in
  let* _ := in_world (Close res) in
  let* _ := file_Close fd outputFile in
  match err with
  | Some e =>
      let* _ := os_Remove outputFile in
      ret (ExitFatal (copy_error_text e))
  | None => ret ExitOk
  end.

Definition main (fl : flags) : M cli_state exit_status :=
  let '(inFrmt, err) := strToFormat (inFormat fl) in
  match err with Some e => ret (ExitFatal ("Invalid input format : " ++ e)%string) | None =>
  let '(outFrmt, err) := strToFormat (outFormat fl) in
  match err with Some e => ret (ExitFatal ("Invalid output format : " ++ e)%string) | None =>
  if ch fl <? 1 then ret (ExitFatal "Invalid channel number") else
  if (ir fl <=? 0) || (or fl <=? 0) then ret (ExitFatal "Invalid input or output sample rate") else
  match args fl with
  | inputFile :: outputFile :: _ =>
      let* input := os_Open inputFile in
      match input with
      | inr e => ret (ExitFatal e)
      | inl data =>
          let* output := os_Create outputFile in
          match output with
          | inr e => ret (ExitFatal e)
          | inl fd =>
              let* '(res, err) := in_world (New (Some fd) (float64_of_int (ir fl)) (float64_of_int (or fl))
                                                (ch fl) inFrmt outFrmt HighQ) in
              match err, res with
              | Some e, _ =>
                  let* _ := file_Close fd outputFile in
                  let* _ := os_Remove outputFile in
                  ret (ExitFatal (error_text e))
              | None, None => crash NilDereference
              | None, Some r =>
                  main_run r fd outputFile data (if wav_input inputFile then wavHeader else 0)
              end
          end
      end
  | _ => ret (ExitFatal "No input or output files given")
  end end end.
End Cli.

(** ** [strToFormat] *)

(** The cases of [strToFormat]: each lowercase name and the package's
    format constant it returns. *)
Definition format_table : list (string * Z) :=
  [("i16", I16); ("i32", I32); ("f32", F32); ("f64", F64)]%string.

(** C14: [strToFormat] matches the lowercase form of its argument against the table of format names: it returns [I16] for "i16", [I32] for "i32", [F32] for "f32" and [F64] for "f64" (so "I16" too, and U+0130 followed by "16", which Unicode lowers to "i16"), with no error; any other string gives [0] and the error "unknown format" followed by the string as written. *)
Theorem strToFormat_spec s f e :
  strToFormat s = (f, e) ->
  (e = None /\ (to_lower s, f) ∈ format_table) \/
  (e = Some ("unknown format " ++ s)%string /\ f = 0 /\ to_lower s ∉ format_table.*1).
Proof.
  unfold strToFormat, format_table.
  destruct (String.eqb_spec (to_lower s) "i16") as [->|H1]; [intros [= <- <-]; left; split; [done|set_solver]|].
  destruct (String.eqb_spec (to_lower s) "i32") as [->|H2]; [intros [= <- <-]; left; split; [done|set_solver]|].
  destruct (String.eqb_spec (to_lower s) "f32") as [->|H3]; [intros [= <- <-]; left; split; [done|set_solver]|].
  destruct (String.eqb_spec (to_lower s) "f64") as [->|H4]; [intros [= <- <-]; left; split; [done|set_solver]|].
  intros [= <- <-]. right. split_and!; [done|done|]. cbn. rewrite !elem_of_cons, elem_of_nil. tauto.
Qed.

(** ** [io.Copy] *)
Section Copy.
Context `{SX : Soxr} `{IW : IoWriter}.

Lemma wp_trivial {S A} (m : M S A) (Q : A -> S -> Prop) s :
  (forall a s', Q a s') -> wp (fun _ => True) m Q s.
Proof. intros H. unfold wp. by destruct (m s) as [[a s']|p]. Qed.

(** [Write] of a non-empty slice reports all of it or nothing, and an
    error exactly when nothing. *)
Lemma Write_count r p w nw ew w' :
  p <> [] -> Write r p w = Done ((nw, ew), w') ->
  (ew = None /\ nw = len p) \/ (ew <> None /\ nw = 0).
Proof.
  intros Hp E.
  assert (H : wp (fun _ => True) (Write r p)
                (fun res _ => (res.2 = None /\ res.1 = len p) \/ (res.2 <> None /\ res.1 = 0)) w).
  { assert (Hl : len p <> 0) by (destruct p; [done|unfold len; simpl; lia]).
    unfold Write, Write_tail. rewrite (proj2 (Z.eqb_neq _ 0) Hl).
    wp_seq ltac:(apply wp_trivial; intros).
    all: cbn [fst snd]; try case_match;
      first [left; split; reflexivity | right; split; [discriminate | reflexivity]]. }
  exact (wp_done _ _ _ _ _ _ H E).
Qed.

Lemma len_chunk (k : nat) (l : list byte) : l <> [] -> 0 < len (take (S k) l).
Proof. destruct l; [done|]. intros _. unfold len. simpl. lia. Qed.

Lemma S_copy_k : S copy_k = Z.to_nat copy_buf.
Proof. reflexivity. Qed.

(** What [input.Read] returns at offset [off]: nothing and [io.EOF] at
    the end, else the first chunk of the rest of the file. *)
Lemma file_read_chunk data off :
  0 <= off ->
  file_read data off copy_buf =
    match drop (Z.to_nat off) data with
    | [] => ([], true)
    | rest => (take (S copy_k) rest, false)
    end.
Proof.
  intros Hoff. unfold file_read. rewrite S_copy_k.
  destruct (drop (Z.to_nat off) data) as [|b rest] eqn:E;
    apply (f_equal length) in E; rewrite length_drop in E; simpl in E.
  - rewrite (proj2 (Z.leb_le _ _)); [done|]. unfold len. lia.
  - rewrite (proj2 (Z.leb_gt _ _)); [done|unfold len; lia].
Qed.

(** Moving past the chunk just read. *)
Lemma drop_after_chunk (k : nat) (data : list byte) off :
  0 <= off ->
  drop (Z.to_nat (off + len (take (S k) (drop (Z.to_nat off) data)))) data =
  drop (S k) (drop (Z.to_nat off) data).
Proof.
  intros Hoff. rewrite (drop_drop data). unfold len. rewrite length_take, length_drop.
  destruct (decide (S k <= length data - Z.to_nat off)%nat).
  - f_equal. lia.
  - rewrite !drop_ge; [done|lia|lia].
Qed.

(** Each chunk read takes one iteration of the fuel. *)
Lemma ceil_div_step (c L off : Z) :
  0 < c -> 0 <= off < L ->
  (Z.to_nat ((L - off + c - 1) / c) + 1 =
   S (Z.to_nat ((L - (off + Z.min c (L - off)) + c - 1) / c) + 1))%nat.
Proof.
  intros Hc Hoff. destruct (Z.le_gt_cases c (L - off)) as [Hb|Hb].
  - rewrite Z.min_l by done.
    replace (L - off + c - 1) with ((L - (off + c) + c - 1) + 1 * c) by lia.
    rewrite Z.div_add by lia. assert (0 <= (L - (off + c) + c - 1) / c) by (apply Z.div_pos; lia). lia.
  - rewrite Z.min_r by lia. replace (L - (off + (L - off)) + c - 1) with (c - 1) by lia.
    rewrite (Z.div_small (c - 1)) by lia.
    assert ((L - off + c - 1) / c = 1) as ->; [|done]. symmetry. apply Z.div_unique with (L - off - 1); lia.
Qed.

Lemma copy_fuel_step data off :
  0 <= off -> drop (Z.to_nat off) data <> [] ->
  copy_fuel data off = S (copy_fuel data (off + len (take (S copy_k) (drop (Z.to_nat off) data)))).
Proof.
  intros Hoff Hne. assert (HL : (Z.to_nat off < length data)%nat).
  { destruct (decide (Z.to_nat off < length data)%nat); [done|]. by rewrite drop_ge in Hne by lia. }
  assert (Hn : len (take (S copy_k) (drop (Z.to_nat off) data)) = Z.min copy_buf (len data - off)).
  { unfold len. rewrite length_take, length_drop, S_copy_k. unfold copy_buf. lia. }
  unfold copy_fuel. rewrite Hn. apply ceil_div_step; [done|]. unfold len. lia.
Qed.

(** C11: With at least [copy_fuel] iterations, the loop of [io.Copy] over the input file, reading 32 KiB at a time from offset [off] and writing each read to the resampler, is the loop [write_chunks] over the chunks of the file after [off]: the fuel never runs out, and the copy writes the 32768-byte slices of the input in order, stopping at the first failing [Write]. *)
Theorem io_copy_refines fuel r data off n w :
  0 <= off -> (copy_fuel data off <= fuel)%nat ->
  io_copy fuel r data off n w = write_chunks r (chunks copy_k (drop (Z.to_nat off) data)) n w.
Proof.
  revert off n w. induction fuel as [|fuel IH]; intros off n w Hoff Hf; [unfold copy_fuel in Hf; lia|].
  pose proof (drop_after_chunk copy_k data off Hoff) as Hd.
  pose proof (copy_fuel_step data off Hoff) as Hs.
  cbn [io_copy]. rewrite file_read_chunk by done.
  destruct (drop (Z.to_nat off) data) as [|b rest] eqn:E; [by simp chunks|].
  specialize (Hs ltac:(done)). simp chunks. set (c := take (S copy_k) (b :: rest)) in *.
  assert (Hl : 0 < len c) by (apply len_chunk; done).
  cbn [write_chunks]. rewrite (proj2 (Z.ltb_lt _ _) Hl). unfold bind.
  destruct (Write r c w) as [[[nw ew] w']|p] eqn:EW; [|done].
  destruct (Write_count _ _ _ _ _ _ ltac:(intros Hc; rewrite Hc in Hl; discriminate) EW)
    as [[-> ->]|[Hne ->]].
  - assert (H0 : (len c <? 0) = false) by (apply Z.ltb_ge; lia).
    rewrite H0, Z.ltb_irrefl, Z.eqb_refl. cbn [negb orb].
    rewrite (IH (off + len c) (n + len c) w'); [by rewrite Hd | lia | rewrite Hs in Hf; lia].
  - destruct ew as [e|]; [|done]. cbn. by rewrite Z.add_0_r.
Qed.
(** A [Write] on a reachable struct: no use-after-delete, and the
    state it returns in is reachable. *)
Lemma Write_reach r p w : reachable r w -> wp ok_panic (Write r p) (fun _ w' => reachable r w') w.
Proof.
  intros Hr. destruct (reachable_inv r w Hr) as [Hwf Hown].
  unfold wp. destruct (Write r p w) as [[[n e] w']|q] eqn:E.
  - apply (reach_call r w (CWrite p) r e w' Hr). cbn [run_call]. by rewrite (bind_done _ _ _ _ _ E).
  - refine (wp_crashed _ _ _ _ _ (run_call_wp r (CWrite p) w Hwf Hown) _).
    cbn [run_call]. by apply bind_crashed.
Qed.

(** The copy on a reachable struct, with its fuel. *)
Lemma io_copy_safe fuel r data off n w :
  reachable r w -> 0 <= off -> (copy_fuel data off <= fuel)%nat ->
  wp ok_panic (io_copy fuel r data off n) (fun _ w' => reachable r w') w.
Proof.
  revert off n w. induction fuel as [|fuel IH]; intros off n w Hr Hoff Hf; [unfold copy_fuel in Hf; lia|].
  pose proof (copy_fuel_step data off Hoff) as Hs.
  cbn [io_copy]. rewrite file_read_chunk by done.
  destruct (drop (Z.to_nat off) data) as [|b rest] eqn:E; [by apply wp_ret|].
  specialize (Hs ltac:(done)). set (c := take (S copy_k) (b :: rest)) in *.
  assert (Hl : 0 < len c) by (apply len_chunk; done).
  rewrite (proj2 (Z.ltb_lt _ _) Hl). apply wp_bind. eapply wp_mono; [by apply Write_reach|].
  intros [nw ew] w' Hr'. cbv beta iota.
  repeat case_match; try (by apply wp_ret). apply IH; [done|lia|lia].
Qed.
(** The copy, whatever its fuel, keeps the live streams and writes only
    to the struct's destination. *)
Lemma io_copy_evolves fuel r data off n w :
  heap_wf (w_heap w) -> owns r w ->
  wp (fun _ => True) (io_copy fuel r data off n) (fun _ w' => evolves (destination r) w w') w.
Proof.
  revert off n w. induction fuel as [|fuel IH]; intros off n w Hh Hown; [done|].
  cbn [io_copy]. destruct (file_read data off copy_buf) as [buf eof]. cbv zeta.
  assert (Hrec : forall off' n' w', evolves (destination r) w w' ->
            wp (fun _ => True) (io_copy fuel r data off' n') (fun _ w'' => evolves (destination r) w w'') w').
  { intros off' n' w' Hev. eapply wp_mono; [apply IH; [by eapply evolves_heap | by eapply evolves_owns]|].
    intros ? w'' Hev'. by eapply evolves_trans. }
  destruct (0 <? len buf).
  - apply wp_bind. apply (wp_ok_mono ok_panic); [|done]. apply Write_wp; [done..|].
    intros [nw ew] w' Hev _. cbv beta iota. repeat case_match; try (by apply wp_ret); by apply Hrec.
  - destruct eof; [by apply wp_ret, evolves_refl | by apply Hrec, evolves_refl].
Qed.

End Copy.

(** ** [main] *)
Section Main.
Context `{SX : Soxr} `{IW : IoWriter}.

Lemma wp_in_world {A} ok (m : M world A) Q s :
  wp ok m (fun a w' => Q a (with_world w' s)) (cs_world s) -> wp ok (in_world m) Q s.
Proof. unfold wp, in_world. by destruct (m (cs_world s)) as [[a w']|p]. Qed.

Lemma in_world_done {A} (m : M world A) s a w :
  m (cs_world s) = Done (a, w) -> in_world m s = Done (a, with_world w s).
Proof. intros H. unfold in_world. by rewrite H. Qed.

Lemma wp_os_Open ok name (Q : list byte + string -> cli_state -> Prop) s :
  (forall x, Q x s) -> wp ok (os_Open name) Q s.
Proof. intros H. unfold wp, os_Open. by destruct (cs_files s !! name). Qed.

Lemma wp_os_Create ok name (Q : writer_id + string -> cli_state -> Prop) s :
  (forall x s', cs_world s' = cs_world s -> Q x s') -> wp ok (os_Create name) Q s.
Proof. intros H. unfold wp, os_Create. by destruct (cs_writable s name); apply H. Qed.

Lemma New_reach wr inr outr chn fi fo q w :
  world_wf w ->
  wp ok_panic (New wr inr outr chn fi fo q) (fun res w' => forall r, res.1 = Some r -> reachable r w') w.
Proof.
  intros Hwf. pose proof (New_wp wr inr outr chn fi fo q w (fun _ _ => True) Hwf ltac:(done)) as H.
  unfold wp in *. destruct (New wr inr outr chn fi fo q w) as [[[res e] w']|p] eqn:E; [|done].
  intros r Hr. simpl in Hr. subst. by eapply reach_new.
Qed.

Lemma Close_reach r w : reachable r w -> wp ok_panic (Close r) (fun _ _ => True) w.
Proof. intros Hr. destruct (reachable_inv r w Hr) as [[Hh _] Hown]. eapply wp_mono; [by apply Close_wp|done]. Qed.

Lemma main_run_safe r fd out data off s :
  reachable r (cs_world s) -> 0 <= off -> wp ok_panic (main_run r fd out data off) (fun _ _ => True) s.
Proof.
  intros Hr Hoff. unfold main_run.
  apply wp_bind, wp_in_world. eapply wp_mono; [apply io_copy_safe; [done|done|lia]|].
  intros [n err] w' Hr'. cbv beta iota.
  apply wp_bind, wp_in_world. eapply wp_mono; [by apply Close_reach|]. intros.
  unfold file_Close, os_Remove. wp_seq fail; done.
Qed.

(** [main] after [New]: the copy and [res.Close()] keep every other
    stream and delete the struct's own. *)
Lemma main_run_streams r fd out data off s :
  heap_wf (w_heap (cs_world s)) -> owns r (cs_world s) ->
  wp (fun _ => True) (main_run r fd out data off)
    (fun _ s' => exists w1, evolves (destination r) (cs_world s) w1 /\
       cs_world s' = if decide (resampler r = nil_soxr) then w1
                     else with_soxr (delete (resampler r) (w_soxr w1)) w1) s.
Proof.
  intros Hh Hown. unfold main_run.
  apply wp_bind, wp_in_world. eapply wp_mono; [by apply io_copy_evolves|].
  intros [n err] w1 Hev. cbv beta iota.
  apply wp_bind, wp_in_world. eapply wp_ok_mono; [|done].
  eapply wp_mono; [apply Close_wp; [by eapply evolves_heap | by eapply evolves_owns]|].
  intros res w2 Hpost. unfold file_Close, os_Remove.
  assert (Hw2 : exists w1', evolves (destination r) (cs_world s) w1' /\
       w2 = if decide (resampler r = nil_soxr) then w1'
            else with_soxr (delete (resampler r) (w_soxr w1')) w1').
  { destruct Hpost as [(Hn & _ & ->)|(Hn & _ & w1' & Hev1 & ->)].
    - exists w1. by rewrite decide_True.
    - exists w1'. rewrite decide_False by done. split; [by eapply evolves_trans|done]. }
  wp_seq fail; done.
Qed.

(** C10: On a well formed world, the program never uses a deleted soxr stream and never runs out of fuel, whatever its flags, files, libsoxr and the output file do: every crash it may end in is one of the panics of cgo, the heap or a nil writer. *)
Theorem main_safe fl s :
  world_wf (cs_world s) -> main fl s <> Crash UseAfterDelete /\ main fl s <> Crash OutOfFuel.
Proof.
  intros Hwf. assert (H : wp ok_panic (main fl) (fun _ _ => True) s).
  { unfold main.
    destruct (strToFormat (inFormat fl)) as [inFrmt [e|]]; [by apply wp_ret|].
    destruct (strToFormat (outFormat fl)) as [outFrmt [e|]]; [by apply wp_ret|].
    destruct (ch fl <? 1); [by apply wp_ret|]. destruct (_ || _); [by apply wp_ret|].
    destruct (args fl) as [|inputFile [|outputFile rest]]; try by apply wp_ret.
    apply wp_bind, wp_os_Open. intros [data|e]; [|by apply wp_ret].
    apply wp_bind, wp_os_Create. intros [fd|e] s' Hs'; [|by apply wp_ret].
    apply wp_bind, wp_in_world. eapply wp_mono; [apply New_reach; by rewrite Hs'|].
    intros [res [e|]] w' Hreach; cbv beta iota.
    - unfold file_Close, os_Remove. wp_seq fail; done.
    - destruct res as [r|]; [|by apply wp_crash].
      apply main_run_safe; [by apply Hreach | by destruct (wav_input inputFile)]. }
  split; intros E; exact (wp_crashed _ _ _ _ _ H E).
Qed.

(** C17: A run of the program that returns, whatever its exit status, leaves the set of live soxr streams as it found it: the stream [resample.New] creates is deleted by [res.Close()] on every path, the copy's failures included, so the program leaks no engine. *)
Theorem main_releases_streams fl s st s' :
  world_wf (cs_world s) -> main fl s = Done (st, s') ->
  forall q, is_Some (w_soxr (cs_world s') !! q) <-> is_Some (w_soxr (cs_world s) !! q).
Proof.
  intros Hwf Hmain.
  cut (wp (fun _ => True) (main fl)
         (fun _ s' => forall q, is_Some (w_soxr (cs_world s') !! q) <-> is_Some (w_soxr (cs_world s) !! q)) s);
    [intros H; exact (wp_done _ _ _ _ _ _ H Hmain)|].
  unfold main.
  destruct (strToFormat (inFormat fl)) as [inFrmt [e|]]; [by apply wp_ret|].
  destruct (strToFormat (outFormat fl)) as [outFrmt [e|]]; [by apply wp_ret|].
  destruct (ch fl <? 1); [by apply wp_ret|]. destruct (_ || _); [by apply wp_ret|].
  destruct (args fl) as [|inputFile [|outputFile rest]]; try by apply wp_ret.
  apply wp_bind, wp_os_Open. intros [data|e]; [|by apply wp_ret].
  apply wp_bind, wp_os_Create. intros [fd|e] s1 Hs1; [|apply wp_ret; by rewrite Hs1].
  apply wp_bind, wp_in_world. rewrite Hs1.
  unfold wp at 1. destruct (New _ _ _ _ _ _ _ (cs_world s)) as [[[res e] w'] |p] eqn:E; [|done].
  pose proof (wp_done _ _ _ _ _ _ (New_wp _ _ _ _ _ _ _ _ (fun res w' => world_wf w' /\ forall r, res.1 = Some r -> owns r w') Hwf
    (fun _ _ H1 H2 => conj H1 H2)) E) as [[Hh' _] Hown].
  pose proof (New_done _ _ _ _ _ _ _ _ _ _ _ E) as Hn. destruct Hwf as [_ [Hpos Hlive]].
  destruct res as [r|]; [destruct Hn as [-> Hn]|subst w'].
  - eapply wp_mono; [apply main_run_streams; [done | by apply Hown]|].
    intros _ s2 (w1 & (_ & Hss & _) & ->). simpl.
    destruct Hn as [[Hr ->]|[Hr [st' Hst]]].
    + rewrite decide_True by done. intros q. apply Hss.
    + rewrite decide_False by (rewrite Hr; unfold nil_soxr; lia). simpl.
      apply (streams_restored _ _ _ st'); [|by rewrite <- Hst].
      destruct (w_soxr (cs_world s) !! resampler r) eqn:Ef; [|done].
      specialize (Hlive _ ltac:(by rewrite Ef)). lia.
  - destruct e; [|by apply wp_crash]. unfold file_Close, os_Remove. wp_seq fail; done.
Qed.

(** [main_run] that exits with status 0 leaves in the output file all
    its descriptor received, [res.Close()]'s flush included. *)
Lemma main_run_output r fd out data off s s' :
  main_run r fd out data off s = Done (ExitOk, s') ->
  cs_files s' !! out = Some (received fd (w_log (cs_world s'))).
Proof.
  unfold main_run, bind, in_world, file_Close, os_Remove, modify, ret.
  repeat (case_match; simplify_eq/=); intros; simplify_eq/=. apply lookup_insert_eq.
Qed.

(** C15: When the program exits with status 0, every byte written to the output's descriptor has reached the output file, the bytes the final flush of [res.Close()] writes included: [res.Close()] runs before [output.Close()], the order the comment at lines 100-101 requires. *)
Theorem main_output_complete fl s s' :
  main fl s = Done (ExitOk, s') ->
  exists inputFile outputFile rest, args fl = inputFile :: outputFile :: rest /\
    cs_files s' !! outputFile = Some (received (cs_next_fd s) (w_log (cs_world s'))).
Proof.
  unfold main, bind, in_world, os_Open, os_Create, file_Close, os_Remove, modify, ret, crash.
  repeat (case_match; simplify_eq/=); intros; simplify_eq/=.
  all: eexists _, _, _; split; [done | by eapply main_run_output].
Qed.

(** C12: When every [Write] of the copy succeeded but [res.Close()] reports an error (the final flush could not be written), [main] ignores it: it exits with status 0 and keeps the output file, with only what reached it, although the spec's CLI deletes a partial output and exits non-zero on any failure. *)
Theorem main_run_ignores_close_error r fd out data off s n w1 r' e w2 :
  io_copy (copy_fuel data off) r data off 0 (cs_world s) = Done ((n, None), w1) ->
  Close r w1 = Done ((r', Some e), w2) ->
  main_run r fd out data off s =
    Done (ExitOk, with_files (<[out := received fd (w_log w2)]> (cs_files s)) (with_world w2 s)).
Proof.
  intros Hc HC. unfold main_run.
  step (in_world_done _ _ _ _ Hc). step (in_world_done (Close r) (with_world w1 s) _ _ HC).
  reflexivity.
Qed.
End Main.
