(* ===== verification/CliRuns.v ===== *)
(** * Concrete runs of the command-line program

    The witnesses of the theorems of [Cli]: [main] run with the
    reference engine [ref_soxr] on in-memory files, for one second of
    16 kHz stereo 16-bit WAV audio resampled to 8 kHz, and for a short
    raw input written to a disk that fills up during the final flush.
    Each run is evaluated with [vm_compute] on a small observation of
    the result ([is_done], [exit_ok]), never on a whole state. *)

From Stdlib Require Import Ascii String.
From S2P Require Import Prelude GoNum CHeap Soxr RefSoxr IoWriter Resampler Lifecycle Cli.

Open Scope Z_scope.

(** A disk that holds [quota] bytes per file: a write that does not fit
    fails and writes nothing. *)
Definition quota_writers (quota : Z) : IoWriter := {|
  io_write w l p :=
    if len (received w l) + len p <=? quota then (len p, None)
    else (0, Some "no space left on device"%string)
|}.

Definition cli_world0 : world := mk_world (mk_heap ∅ 1 (2 ^ 40)) ∅ 1 [] 4.

Definition cli_state0 (files : gmap string (list byte)) : cli_state :=
  mk_cli cli_world0 files 7%N (fun _ => true).

(** 64000 bytes of 2-channel 16-bit input at 16000 Hz after a WAV header. *)

Definition in_wav : list byte := replicate 44 Byte.x00 ++ replicate 64000 Byte.x01.
Definition fl_87 : flags := mk_flags "i16" "I16" 2 16000 8000 ["in.wav"; "out.raw"]%string.

(** U+0130 followed by "16", in UTF-8. *)
Definition u16 : string := String "196"%char (String "176"%char "16").

Lemma strToFormat_spec_witness :
  (@None string = None /\ (to_lower u16, I16) ∈ format_table) \/
  (@None string = Some ("unknown format " ++ u16)%string /\ I16 = 0 /\ to_lower u16 ∉ format_table.*1).
Proof. apply (strToFormat_spec u16 I16 None). reflexivity. Defined.

Section Healthy.
#[local] Instance cli_writers : IoWriter := mem_writers (fun _ => false).

Lemma main_safe_witness :
  main fl_87 (cli_state0 {["in.wav"%string := in_wav]}) <> Crash UseAfterDelete /\
  main fl_87 (cli_state0 {["in.wav"%string := in_wav]}) <> Crash OutOfFuel.
Proof. apply main_safe. apply world_wf_fresh; [apply heap_wf_empty|]; reflexivity. Defined.

Lemma io_copy_refines_witness :
  io_copy (copy_fuel in_wav 44) (mk_resampler 1 16000 8000 2 2 2 (Some 7%N)) in_wav 44 0 cli_world0 =
  write_chunks (mk_resampler 1 16000 8000 2 2 2 (Some 7%N)) (chunks copy_k (drop (Z.to_nat 44) in_wav)) 0 cli_world0.
Proof. apply io_copy_refines; [lia | reflexivity]. Defined.
End Healthy.

(** ** A disk that fills up during the final flush *)
Section FullDisk.
#[local] Instance full_disk : IoWriter := quota_writers 136.

(** 100 frames of 2 x 16 bits at 16000 Hz to 8000 Hz: the [Write] sends
    34 frames (136 bytes) and the flush at [Close] the last 16. *)
Definition in_q : list byte := replicate 400 Byte.x01.
Definition fl_q : flags := mk_flags "i16" "i16" 2 16000 8000 ["in.raw"; "out.raw"]%string.

Lemma main_releases_streams_witness :
  exists st s', main fl_q (cli_state0 {["in.raw"%string := in_q]}) = Done (st, s') /\
  forall q, is_Some (w_soxr (cs_world s') !! q) <-> is_Some (w_soxr (cs_world (cli_state0 {["in.raw"%string := in_q]})) !! q).
Proof.
  assert (Hd : is_done (main fl_q (cli_state0 {["in.raw"%string := in_q]})) = true) by (vm_compute; reflexivity).
  destruct (is_done_spec _ Hd) as [[st s'] E]. exists st, s'. split; [exact E|].
  apply (main_releases_streams fl_q (cli_state0 {["in.raw"%string := in_q]}) st s'); [|exact E].
  apply world_wf_fresh; [apply heap_wf_empty|]; reflexivity.
Defined.

(** Whether a run exited with status 0. *)
Definition exit_ok (o : outcome (exit_status * cli_state)) : bool :=
  match o with Done (ExitOk, _) => true | _ => false end.

Lemma main_output_complete_witness :
  exists s', main fl_q (cli_state0 {["in.raw"%string := in_q]}) = Done (ExitOk, s') /\
  exists inputFile outputFile rest, args fl_q = inputFile :: outputFile :: rest /\
    cs_files s' !! outputFile = Some (received (cs_next_fd (cli_state0 {["in.raw"%string := in_q]})) (w_log (cs_world s'))).
Proof.
  assert (Hd : exit_ok (main fl_q (cli_state0 {["in.raw"%string := in_q]})) = true) by (vm_compute; reflexivity).
  unfold exit_ok in Hd.
  destruct (main fl_q (cli_state0 {["in.raw"%string := in_q]})) as [[[|m] s']|p] eqn:E; try discriminate Hd.
  exists s'. split; [done|]. exact (main_output_complete fl_q _ s' E).
Defined.

(** The state [main] reaches before [main_run] in that run. *)
Definition q_r : Resampler := mk_resampler 1 16000 8000 2 2 2 (Some 7%N).
Definition q_world : world := mk_world (mk_heap ∅ 1 (2 ^ 40)) {[1%N := mk_ref 16000 8000 4 4 0 []]} 2 [] 4.
Definition q_state : cli_state :=
  mk_cli q_world {["in.raw"%string := in_q; "out.raw"%string := []]} 8%N (fun _ => true).

(** The copy succeeds and [Close] fails. *)
Definition q_check : bool :=
  match io_copy (copy_fuel in_q 0) q_r in_q 0 0 q_world with
  | Done ((_, None), w1) => match Close q_r w1 with Done ((_, Some _), _) => true | _ => false end
  | _ => false
  end.

Lemma main_run_ignores_close_error_witness :
  exists n w1 r' e w2,
    io_copy (copy_fuel in_q 0) q_r in_q 0 0 q_world = Done ((n, None), w1) /\
    Close q_r w1 = Done ((r', Some e), w2) /\
    main_run q_r 7%N "out.raw" in_q 0 q_state =
      Done (ExitOk, with_files (<["out.raw"%string := received 7%N (w_log w2)]> (cs_files q_state))
                               (with_world w2 q_state)).
Proof.
  assert (Hc : q_check = true) by (vm_compute; reflexivity). unfold q_check in Hc.
  destruct (io_copy (copy_fuel in_q 0) q_r in_q 0 0 q_world) as [[[n [ce|]] w1]|p] eqn:E1; try discriminate Hc.
  destruct (Close q_r w1) as [[[r' [e|]] w2]|p] eqn:E2; try discriminate Hc.
  exists n, w1, r', e, w2. split; [done|]. split; [done|].
  by apply (main_run_ignores_close_error q_r 7%N "out.raw" in_q 0 q_state n w1 r' e w2).
Defined.
End FullDisk.
