(* ===== verification/Scenarios.v ===== *)
(** * Concrete runs of the package

    The package's functions run on concrete inputs with the model engine
    [ref_soxr] of [RefSoxr] (and [faulty_soxr] for the engine-error
    paths) and in-memory writers ([mem_writers]; writer 9 fails every
    call).  [ex_world] is the world [New] leaves after creating a
    2-channel 16-bit stream 16000 Hz -> 8000 Hz writing to writer 7 on an
    empty heap with four CPUs ([New_run]); [ex_world1] is the world after
    a first [Write] of 100 frames ([Write_spec_witness]).  Each witness applies one theorem of
    [Resampler] at such an input; the examples state the spec's concrete
    scenarios.  [New_typed_witness] checks the struct of [New_run]. *)

From S2P Require Import Prelude GoNum CHeap Soxr RefSoxr IoWriter Resampler Lifecycle.

Open Scope Z_scope.

#[local] Instance ex_writers : IoWriter := mem_writers (fun w => (w =? 9)%N).

Definition ex_world0 : world := mk_world (mk_heap ∅ 1 (2 ^ 40)) ∅ 1 [] 4.
Definition ex_r : Resampler := mk_resampler 1 16000 8000 2 2 2 (Some 7%N).
Definition ex_st0 : ref_state := mk_ref 16000 8000 4 4 0 [].
Definition ex_world : world := mk_world (mk_heap ∅ 1 (2 ^ 40)) {[1%N := ex_st0]} 2 [] 4.

(** 100 frames of 2 x 16 bits. *)
Definition ex_p : list byte := replicate 400 Byte.x01.
Definition ex_proc := ref_process ex_st0 (Some ex_p) 100 true 50.
Definition ex_world1 : world :=
  mk_world (mk_heap ∅ 3 (2 ^ 40)) {[1%N := ex_proc.1]} 2
           [(7%N, accepted (len ex_proc.2.1.2) ex_proc.2.1.2)] 4.
Definition ex_flush := ref_process ex_proc.1 None 0 false flush_frames.

(** Closed obligations: equations and boolean comparisons by conversion
    (normalising a whole world with [vm_compute] would also normalise the
    proofs inside its [gmap]s). *)
Ltac concrete :=
  first [ reflexivity | discriminate
        | apply Z.leb_le; reflexivity | apply Z.ltb_lt; reflexivity
        | apply N.ltb_lt; reflexivity
        | split; concrete ].

Ltac concrete_pre :=
  lazymatch goal with
  | |- write_pre _ _ _ _ => unfold write_pre
  | |- flush_pre _ _ _ => unfold flush_pre
  end; cbv zeta;
  repeat (lazymatch goal with
          | |- heap_wf _ => apply heap_wf_no_blocks; reflexivity
          | |- _ /\ _ => split
          | |- _ => concrete
          end).

Lemma New_run :
  New (Some 7%N) 16000%float 8000%float 2 I16 I16 HighQ ex_world0 = Done ((Some ex_r, None), ex_world).
Proof. reflexivity. Qed.

(** ** Witnesses *)

Lemma New_typed_witness :
  None = @None go_error /\ destination ex_r = Some 7%N /\ Some 7%N <> None /\ channels ex_r = 2 /\ 2 <> 0 /\
  frame_size_ok (inFrameSize ex_r) = true /\ frame_size_ok (outFrameSize ex_r) = true /\
  inRate ex_r = 16000%float /\ outRate ex_r = 8000%float /\
  float_le_zero 16000%float = false /\ float_le_zero 8000%float = false.
Proof. exact (New_typed (Some 7%N) 16000%float 8000%float 2 I16 I16 HighQ ex_world0 ex_r None ex_world New_run). Defined.

Lemma Write_spec_witness : Write ex_r ex_p ex_world = Done ((400, None), ex_world1).
Proof.
  apply (Write_spec ex_r ex_p ex_world ex_st0 ex_proc.1 ex_proc.2.1.1.1 ex_proc.2.1.1.2
                   ex_proc.2.1.2 7%N (len ex_proc.2.1.2) None); [concrete_pre | concrete..].
Defined.

Lemma Write_closed_witness :
  Write (set_resampler ex_r nil_soxr) ex_p ex_world = Done ((0, Some ErrResamplerNil), ex_world).
Proof. apply Write_closed. reflexivity. Defined.

Lemma flush_spec_witness : exists w', flush ex_r ex_world1 = Done (None, w').
Proof.
  eexists. apply (flush_spec ex_r ex_world1 ex_proc.1 ex_flush.1 ex_flush.2.1.1.1 ex_flush.2.1.1.2
                   ex_flush.2.1.2 7%N (len ex_flush.2.1.2) None);
    [concrete_pre | concrete..].
Defined.

Lemma Close_spec_witness :
  exists w', Close ex_r ex_world1 = Done ((set_resampler ex_r nil_soxr, None), w').
Proof.
  eexists. apply (Close_spec ex_r ex_world1 ex_proc.1 ex_flush.1 ex_flush.2.1.1.1 ex_flush.2.1.1.2
                   ex_flush.2.1.2 7%N (len ex_flush.2.1.2) None);
    [concrete_pre | concrete..].
Defined.

Lemma Reset_spec_witness :
  exists w', Reset ex_r (Some 8%N) ex_world1 = Done ((set_destination ex_r (Some 8%N), None), w').
Proof.
  eexists. apply (Reset_spec ex_r (Some 8%N) ex_world1 ex_proc.1 ex_flush.1 ex_flush.2.1.1.1
                   ex_flush.2.1.1.2 ex_flush.2.1.2 7%N (len ex_flush.2.1.2) None);
    [concrete_pre | concrete..].
Defined.

Lemma Write_empty_witness : Write ex_r [] ex_world = Done ((0, None), ex_world).
Proof. apply Write_empty. discriminate. Defined.

(** Three bytes are less than one frame of 2 x 16 bits. *)
Lemma Write_incomplete_frame_witness :
  Write ex_r (replicate 3 Byte.x01) ex_world = Done ((0, Some ErrIncompleteFrame), ex_world).
Proof. apply Write_incomplete_frame; concrete. Defined.

(** One frame at 16000 Hz -> 8000 Hz: the budget [int(1 * 0.5)] is 0. *)
Lemma Write_not_enough_input_witness :
  Write ex_r (replicate 4 Byte.x01) ex_world = Done ((0, Some ErrNotEnoughInput), ex_world).
Proof. apply Write_not_enough_input; concrete. Defined.

(** A NaN input rate and a channel count of -1 pass [New]'s checks. *)
Lemma New_validated_witness :
  New (Some 7%N) PrimFloat.nan 8000%float (-1) I16 I16 HighQ ex_world0 =
  New_tail (Some 7%N) PrimFloat.nan 8000%float (-1) I16 I16 HighQ 2 2 ex_world0.
Proof. apply New_validated; concrete. Defined.

Lemma New_tail_ok_witness :
  New_tail (Some 7%N) 16000%float 8000%float 2 I16 I16 HighQ 2 2 ex_world0 =
  Done ((Some ex_r, None), ex_world).
Proof. rewrite (New_tail_ok (SX := ref_soxr) _ _ _ _ _ _ _ _ _ _ ex_st0) by reflexivity. reflexivity. Defined.

(** Property 8 of the spec: [outputRate = 0] fails before soxr is called. *)
Lemma New_invalid_rates_witness :
  New (Some 7%N) 16000%float 0%float 2 I16 I16 HighQ ex_world0 =
  Done ((None, Some ErrInvalidRates), ex_world0).
Proof. apply New_invalid_rates. reflexivity. Defined.

Definition ex_fail_msg : string := "soxr: stream failed".

Lemma Write_engine_error_witness :
  Write (SX := faulty_soxr ex_fail_msg) ex_r ex_p
    (mk_world (mk_heap ∅ 1 (2 ^ 40)) {[1%N := ex_st0]} 2 [] 4) = Crash InvalidFree.
Proof.
  apply (Write_engine_error (SX := faulty_soxr ex_fail_msg) _ _ _ ex_st0 ex_st0 0 0 [] ex_fail_msg);
    [concrete_pre | concrete..].
Defined.

(** With a NaN rate the engine reports ["invalid io_ratio"], and [New]
    frees that static message. *)
Lemma New_tail_engine_error_witness :
  New_tail (Some 7%N) PrimFloat.nan 8000%float 2 I16 I16 HighQ 2 2 ex_world0 = Crash InvalidFree.
Proof. apply (New_tail_engine_error (SX := ref_soxr) _ _ _ _ _ _ _ _ _ _ None "invalid io_ratio"%string). reflexivity. Defined.

(** 14 bytes: three frames and two stray bytes; soxr takes two frames
    ([ceil(1 * 16000 / 8000)]), [Write] reports all 14 bytes. *)
Definition ex_p14 : list byte := replicate 14 Byte.x01.
Definition ex_proc14 := ref_process ex_st0 (Some ex_p14) 3 true 1.

Definition ex_reset_nil := Reset ex_r None ex_world.
Definition ex_r_nil : Resampler := set_destination ex_r None.
Definition ex_world_reset : world :=
  match ex_reset_nil with Done (_, w) => w | Crash _ => ex_world end.
Definition ex_st_reset : ref_state := mk_ref 16000 8000 4 4 0 [].

Lemma Reset_nil_writer_panics_witness :
  Reset ex_r None ex_world = Done ((ex_r_nil, None), ex_world_reset) /\
  Write ex_r_nil ex_p ex_world_reset = Crash NilDereference.
Proof.
  split; [reflexivity|].
  apply (Reset_nil_writer_panics ex_r ex_world ex_r_nil None ex_world_reset ex_p ex_st_reset
           (ref_process ex_st_reset (Some ex_p) 100 true 50).1
           (ref_process ex_st_reset (Some ex_p) 100 true 50).2.1.1.1
           (ref_process ex_st_reset (Some ex_p) 100 true 50).2.1.1.2
           (ref_process ex_st_reset (Some ex_p) 100 true 50).2.1.2); [reflexivity|concrete_pre|concrete].
Defined.

(** ** Sequences of calls *)

(** [ex_r] in [ex_world] is reachable: [New] on an empty world. *)
Lemma reach_ex : reachable ex_r ex_world.
Proof.
  eapply (reach_new (Some 7%N) 16000%float 8000%float 2 I16 I16 HighQ ex_world0); [|exact New_run].
  apply world_wf_fresh; [apply heap_wf_empty|]; reflexivity.
Qed.

Lemma reachable_safe_witness :
  world_wf ex_world /\ owns ex_r ex_world /\ forall c, run_call ex_r c ex_world <> Crash UseAfterDelete.
Proof. apply reachable_safe. exact reach_ex. Defined.

Lemma Close_releases_stream_witness :
  exists r' e w', run_call ex_r CClose ex_world = Done ((r', e), w') /\
  resampler r' = nil_soxr /\ w_soxr w' !! resampler ex_r = None /\
  forall q, q <> resampler ex_r -> is_Some (w_soxr w' !! q) <-> is_Some (w_soxr ex_world !! q).
Proof.
  assert (Hd : is_done (run_call ex_r CClose ex_world) = true) by reflexivity.
  destruct (is_done_spec _ Hd) as [[[r' e] w'] E].
  exists r', e, w'. split; [exact E|].
  apply (Close_releases_stream ex_r ex_world r' e w'); [exact reach_ex | discriminate | exact E].
Defined.

Lemma closed_is_terminal_witness :
  run_calls (set_resampler ex_r nil_soxr) [CWrite ex_p; CReset (Some 8%N); CClose] ex_world =
  Done ((set_resampler ex_r nil_soxr, [Some ErrResamplerNil; Some ErrResamplerNil; Some ErrResamplerNil]),
        ex_world).
Proof. apply (closed_is_terminal (set_resampler ex_r nil_soxr) [CWrite ex_p; CReset (Some 8%N); CClose]). reflexivity. Defined.

(** [Write], [Reset] to writer 8, [Write]. *)
Definition ex_seq_calls : list call := [CWrite ex_p] ++ CReset (Some 8%N) :: [CWrite ex_p].

Lemma Reset_orders_output_witness :
  exists r' es w', run_calls ex_r ex_seq_calls ex_world = Done ((r', es), w') /\
  exists r1 es1 w1, run_calls ex_r ([CWrite ex_p] ++ [CReset (Some 8%N)]) ex_world = Done ((r1, es1), w1) /\
    log_to (destination ex_r) ex_world w1 /\ log_to (Some 8%N) w1 w'.
Proof.
  assert (Hd : is_done (run_calls ex_r ex_seq_calls ex_world) = true) by reflexivity.
  destruct (is_done_spec _ Hd) as [[[r' es] w'] E].
  exists r', es, w'. split; [exact E|].
  apply (Reset_orders_output ex_r ex_world [CWrite ex_p] (Some 8%N) [CWrite ex_p] r' es w');
    [exact reach_ex | repeat constructor | repeat constructor | exact E].
Defined.

(** 2^29 frames of 2 x 16 bits are 2 GiB. *)
Lemma Write_tail_cint_overflow_witness :
  Write_tail ex_r ex_p 1 2 (2 ^ 29) None ex_world = Crash BadLength.
Proof. apply (Write_tail_cint_overflow ex_r ex_p 1 2 (2 ^ 29) ex_world); concrete. Defined.

(** 4096 channels of f64: a full flush of 65536 frames is 2 GiB. *)
Lemma flush_tail_cint_overflow_witness :
  flush_tail (mk_resampler 1 16000 8000 4096 8 8 (Some 7%N)) 1 65536 None ex_world = Crash BadLength.
Proof. apply (flush_tail_cint_overflow (mk_resampler 1 16000 8000 4096 8 8 (Some 7%N)) 1 65536 ex_world); concrete. Defined.
